(** * The sanitycheck output harness (scripts/sanity_chk/harness.py)

    A shallow embedding of the line-oriented harness classes [Harness],
    [Console] and [Test], with the properties of their verdict logic.

    Python objects are records, attribute assignment is a functional
    update, a raised exception is the [Raise] branch of [result].  The
    standard [re] module is not part of the script: it is an interface
    ([RegexEngine]) that the console harness is parametrised by. *)

From Stdlib Require Import Ascii String ZArith List Permutation Lia.
From stdpp Require Import gmap strings list fin_maps.

(** ** Python strings *)

(** [a in b] on two [str] values: [a] occurs somewhere inside [b]. *)
Fixpoint startswith (s p : string) : bool :=
  match p, s with
  | EmptyString, _ => true
  | String c p', String d s' => Ascii.eqb c d && startswith s' p'
  | String _ _, EmptyString => false
  end.

Fixpoint str_in (a b : string) : bool :=
  startswith b a ||
  match b with
  | EmptyString => false
  | String _ b' => str_in a b'
  end.

(** [s] without its prefix [p], when it has that prefix. *)
Fixpoint strip_prefix (p s : string) : option string :=
  match p, s with
  | EmptyString, _ => Some s
  | String c p', String d s' =>
      if Ascii.eqb c d then strip_prefix p' s' else None
  | String _ _, EmptyString => None
  end.

Definition newline : ascii := Ascii.ascii_of_nat 10.

(** The longest prefix without a line feed: what [.*] consumes. *)
Fixpoint dot_star (s : string) : string :=
  match s with
  | EmptyString => EmptyString
  | String c s' => if Ascii.eqb c newline then EmptyString
                   else String c (dot_star s')
  end.

(** ** Exceptions *)

Inductive PyError := IndexError | AttributeError | ReError.

Inductive result (A : Type) : Type :=
| Ok (a : A)
| Raise (e : PyError).
Arguments Ok {A} a.
Arguments Raise {A} e.

#[global] Instance result_ret : MRet result := fun A a => Ok a.
#[global] Instance result_bind : MBind result := fun A B f m =>
  match m with
  | Ok a => f a
  | Raise e => Raise e
  end.
#[global] Instance result_fmap : FMap result := fun A B f m =>
  match m with
  | Ok a => Ok (f a)
  | Raise e => Raise e
  end.

(** [l[i]] on a list, for an index that is not negative. *)
Definition index {A} (l : list A) (i : nat) : result A :=
  match l !! i with
  | Some a => Ok a
  | None => Raise IndexError
  end.

(** Reading an attribute that is only set by [configure]. *)
Definition attr {A} (o : option A) : result A :=
  match o with
  | Some a => Ok a
  | None => Raise AttributeError
  end.

(** ** The [re] interface *)

(** [re_compile] is [re.compile], which raises [re.error] on a malformed
    pattern; [re_search p line] is the truth value of [p.search(line)]. *)
Class RegexEngine := {
  Pattern : Type;
  re_compile : string -> result Pattern;
  re_search : Pattern -> string -> bool;
}.

(** [result_re]: a keyword group (PASS|FAIL|SKIP), the text ' - ', an
    optional group (test_)? and a last group made of [.*], applied with
    [match], which anchors at the start of the line.  The three keywords
    exclude each other, the optional group is greedy and [.*] accepts
    whatever follows up to a line feed, so no choice is ever revisited: the
    groups are read off from left to right.  The result is the pair of
    [group(1)] and [group(3)]. *)
Definition result_re_keyword (line : string) : option (string * string) :=
  match strip_prefix "PASS" line with
  | Some rest => Some ("PASS", rest)
  | None =>
      match strip_prefix "FAIL" line with
      | Some rest => Some ("FAIL", rest)
      | None =>
          match strip_prefix "SKIP" line with
          | Some rest => Some ("SKIP", rest)
          | None => None
          end
      end
  end.

Definition result_re_match (line : string) : option (string * string) :=
  match result_re_keyword line with
  | Some (g1, rest) =>
      match strip_prefix " - " rest with
      | Some rest =>
          let rest := match strip_prefix "test_" rest with
                      | Some rest' => rest'
                      | None => rest
                      end in
          Some (g1, dot_star rest)
      | None => None
      end
  | None => None
  end.

(** ** The test descriptor *)

(** [instance.test.harness_config] is a dictionary (or [None]); a key that
    is absent is [None] here, and [cfg_others] tells whether the dictionary
    holds keys besides the four that [configure] reads. *)
Record Config := {
  cfg_type : option string;
  cfg_regex : option (list string);
  cfg_repeat : option Z;
  cfg_ordered : option bool;
  cfg_others : bool;
}.

Record TestCase := {
  harness_config : option Config;
  test_id : string;
  tags : list string;
}.

Record Instance := { test : TestCase }.

(** [if config:] - [None] and the empty dictionary are false. *)
Definition truthy (config : option Config) : bool :=
  match config with
  | None => false
  | Some c =>
      bool_decide (is_Some (cfg_type c)) || bool_decide (is_Some (cfg_regex c))
      || bool_decide (is_Some (cfg_repeat c))
      || bool_decide (is_Some (cfg_ordered c))
      || cfg_others c
  end.

(** [self.state]: [None] while the test runs. *)
Inductive Verdict := passed | failed.

#[global] Instance Verdict_eq_dec : EqDecision Verdict.
Proof. solve_decision. Defined.

(** [str(x)] for an attribute that holds [None] or a string. *)
Definition format (x : option string) : string :=
  match x with
  | Some s => s
  | None => "None"
  end.

(** An [OrderedDict] from strings to strings, in insertion order. *)
Definition odict := list (string * string).

Definition od_mem (k : string) (d : odict) : bool :=
  bool_decide (k ∈ d.*1).

Fixpoint od_set (k v : string) (d : odict) : odict :=
  match d with
  | [] => [(k, v)]
  | (k', v') :: d' =>
      if bool_decide (k' = k) then (k, v) :: d' else (k', v') :: od_set k v d'
  end.

Fixpoint od_get (k : string) (d : odict) : option string :=
  match d with
  | [] => None
  | (k', v') :: d' => if bool_decide (k' = k) then Some v' else od_get k d'
  end.

(** ** class Harness *)

Module Harness.

Definition GCOV_START : string := "GCOV_COVERAGE_DUMP_START".
Definition GCOV_END : string := "GCOV_COVERAGE_DUMP_END".
Definition FAULT : string := "ZEPHYR FATAL ERROR".

(** The attributes set by [__init__].  [next_pattern] starts at 0 and is
    only ever incremented, hence a natural number; [tests] is keyed by
    whatever [self.id] holds, [None] included. *)
Record t := {
  state : option Verdict;
  type : option string;
  regex : list string;
  matches : odict;
  ordered : bool;
  repeat : Z;
  tests : gmap (option string) string;
  id : option string;
  fail_on_fault : bool;
  fault : bool;
  capture_coverage : bool;
  next_pattern : nat;
}.

(** [__init__] *)
Definition init : t := {|
  state := None;
  type := None;
  regex := [];
  matches := [];
  ordered := true;
  repeat := 1;
  tests := ∅;
  id := None;
  fail_on_fault := true;
  fault := false;
  capture_coverage := false;
  next_pattern := 0;
|}.

Definition set_state v (h : t) : t :=
  {| state := v; type := type h; regex := regex h; matches := matches h;
     ordered := ordered h; repeat := repeat h; tests := tests h; id := id h;
     fail_on_fault := fail_on_fault h; fault := fault h;
     capture_coverage := capture_coverage h;
     next_pattern := next_pattern h |}.

Definition set_type v (h : t) : t :=
  {| state := state h; type := v; regex := regex h; matches := matches h;
     ordered := ordered h; repeat := repeat h; tests := tests h; id := id h;
     fail_on_fault := fail_on_fault h; fault := fault h;
     capture_coverage := capture_coverage h;
     next_pattern := next_pattern h |}.

Definition set_regex v (h : t) : t :=
  {| state := state h; type := type h; regex := v; matches := matches h;
     ordered := ordered h; repeat := repeat h; tests := tests h; id := id h;
     fail_on_fault := fail_on_fault h; fault := fault h;
     capture_coverage := capture_coverage h;
     next_pattern := next_pattern h |}.

Definition set_matches v (h : t) : t :=
  {| state := state h; type := type h; regex := regex h; matches := v;
     ordered := ordered h; repeat := repeat h; tests := tests h; id := id h;
     fail_on_fault := fail_on_fault h; fault := fault h;
     capture_coverage := capture_coverage h;
     next_pattern := next_pattern h |}.

Definition set_ordered v (h : t) : t :=
  {| state := state h; type := type h; regex := regex h; matches := matches h;
     ordered := v; repeat := repeat h; tests := tests h; id := id h;
     fail_on_fault := fail_on_fault h; fault := fault h;
     capture_coverage := capture_coverage h;
     next_pattern := next_pattern h |}.

Definition set_repeat v (h : t) : t :=
  {| state := state h; type := type h; regex := regex h; matches := matches h;
     ordered := ordered h; repeat := v; tests := tests h; id := id h;
     fail_on_fault := fail_on_fault h; fault := fault h;
     capture_coverage := capture_coverage h;
     next_pattern := next_pattern h |}.

Definition set_tests v (h : t) : t :=
  {| state := state h; type := type h; regex := regex h; matches := matches h;
     ordered := ordered h; repeat := repeat h; tests := v; id := id h;
     fail_on_fault := fail_on_fault h; fault := fault h;
     capture_coverage := capture_coverage h;
     next_pattern := next_pattern h |}.

Definition set_id v (h : t) : t :=
  {| state := state h; type := type h; regex := regex h; matches := matches h;
     ordered := ordered h; repeat := repeat h; tests := tests h; id := v;
     fail_on_fault := fail_on_fault h; fault := fault h;
     capture_coverage := capture_coverage h;
     next_pattern := next_pattern h |}.

Definition set_fail_on_fault v (h : t) : t :=
  {| state := state h; type := type h; regex := regex h; matches := matches h;
     ordered := ordered h; repeat := repeat h; tests := tests h; id := id h;
     fail_on_fault := v; fault := fault h;
     capture_coverage := capture_coverage h;
     next_pattern := next_pattern h |}.

Definition set_fault v (h : t) : t :=
  {| state := state h; type := type h; regex := regex h; matches := matches h;
     ordered := ordered h; repeat := repeat h; tests := tests h; id := id h;
     fail_on_fault := fail_on_fault h; fault := v;
     capture_coverage := capture_coverage h;
     next_pattern := next_pattern h |}.

Definition set_capture_coverage v (h : t) : t :=
  {| state := state h; type := type h; regex := regex h; matches := matches h;
     ordered := ordered h; repeat := repeat h; tests := tests h; id := id h;
     fail_on_fault := fail_on_fault h; fault := fault h;
     capture_coverage := v;
     next_pattern := next_pattern h |}.

Definition set_next_pattern v (h : t) : t :=
  {| state := state h; type := type h; regex := regex h; matches := matches h;
     ordered := ordered h; repeat := repeat h; tests := tests h; id := id h;
     fail_on_fault := fail_on_fault h; fault := fault h;
     capture_coverage := capture_coverage h;
     next_pattern := v |}.

(** [configure(self, instance)] *)
Definition configure (self : t) (instance : Instance) : t :=
  let config := harness_config (test instance) in
  let self := set_id (Some (test_id (test instance))) self in
  let self :=
    if bool_decide ("ignore_faults" ∈ tags (test instance))
    then set_fail_on_fault false self else self in
  match config with
  | Some c =>
      if truthy config then
        let self := set_type (cfg_type c) self in
        let self := set_regex (default [] (cfg_regex c)) self in
        let self := set_repeat (default 1%Z (cfg_repeat c)) self in
        set_ordered (default true (cfg_ordered c)) self
      else self
  | None => self
  end.

(** The tail shared by both [handle] methods: the fault scan and the
    coverage boundary scan. *)
Definition scan_fault (self : t) (line : string) : t :=
  if fail_on_fault self then
    if str_in FAULT line then set_fault true self else self
  else self.

Definition scan_coverage (self : t) (line : string) : t :=
  if str_in GCOV_START line then set_capture_coverage true self
  else if str_in GCOV_END line then set_capture_coverage false self
  else self.

End Harness.

(** ** class Test(Harness) *)

Module Test.

Definition RUN_PASSED : string := "PROJECT EXECUTION SUCCESSFUL".
Definition RUN_FAILED : string := "PROJECT EXECUTION FAILED".

(** [Test] adds no attribute and inherits [configure]. *)
Definition configure := Harness.configure.

(** [handle(self, line)] *)
Definition handle (self : Harness.t) (line : string) : Harness.t :=
  let self :=
    match result_re_match line with
    | Some (group1, group3) =>
        let name := format (Harness.id self) +:+ "." +:+ group3 in
        Harness.set_tests (<[Some name := group1]> (Harness.tests self)) self
    | None => self
    end in
  let self :=
    if str_in RUN_PASSED line then
      if Harness.fault self then Harness.set_state (Some failed) self
      else Harness.set_state (Some passed) self
    else self in
  let self :=
    if str_in RUN_FAILED line then Harness.set_state (Some failed) self
    else self in
  let self := Harness.scan_fault self line in
  Harness.scan_coverage self line.

(** [handle] called once per line, in the order of the output. *)
Definition run (self : Harness.t) (lines : list string) : Harness.t :=
  fold_left handle lines self.

End Test.

(** ** class Console(Harness) *)

Module Console.
Section WithEngine.

Context {E : RegexEngine}.

(** The attributes of [Harness], and the two that [configure] adds:
    [None] stands for an attribute that was never assigned. *)
Record t := {
  base : Harness.t;
  pattern : option Pattern;
  patterns : option (list Pattern);
}.

Definition init : t :=
  {| base := Harness.init; pattern := None; patterns := None |}.

Definition set_base v (c : t) : t :=
  {| base := v; pattern := pattern c; patterns := patterns c |}.
Definition set_pattern v (c : t) : t :=
  {| base := base c; pattern := v; patterns := patterns c |}.
Definition set_patterns v (c : t) : t :=
  {| base := base c; pattern := pattern c; patterns := v |}.

Definition type_is (name : string) (self : t) : bool :=
  bool_decide (Harness.type (base self) = Some name).

(** [for r in self.regex: self.patterns.append(re.compile(r))] *)
Fixpoint compile_all (rs : list string) : result (list Pattern) :=
  match rs with
  | [] => Ok []
  | r :: rs' =>
      p ← re_compile r;
      ps ← compile_all rs';
      Ok (p :: ps)
  end.

(** [configure(self, instance)] *)
Definition configure (self : t) (instance : Instance) : result t :=
  let self := set_base (Harness.configure (base self) instance) self in
  if type_is "one_line" self then
    r ← index (Harness.regex (base self)) 0;
    p ← re_compile r;
    Ok (set_pattern (Some p) self)
  else if type_is "multi_line" self then
    ps ← compile_all (Harness.regex (base self));
    Ok (set_patterns (Some ps) self)
  else Ok self.

(** The loop of the unordered mode, from position [i] on:
    [for i, pattern in enumerate(self.patterns)]. *)
Fixpoint scan_unordered (regex : list string) (line : string) (i : nat)
    (ps : list Pattern) (matches : odict) : result odict :=
  match ps with
  | [] => Ok matches
  | pattern :: ps' =>
      r ← index regex i;
      let matches :=
        if re_search pattern line && negb (od_mem r matches)
        then od_set r line matches else matches in
      scan_unordered regex line (S i) ps' matches
  end.

(** The mode dispatch at the head of [handle]. *)
Definition dispatch (self : t) (line : string) : result t :=
  let h := base self in
  if type_is "one_line" self then
    p ← attr (pattern self);
    Ok (if re_search p line
        then set_base (Harness.set_state (Some passed) h) self
        else self)
  else if type_is "multi_line" self && Harness.ordered h then
    ps ← attr (patterns self);
    if Harness.next_pattern h <? length ps then
      p ← index ps (Harness.next_pattern h);
      if re_search p line then
        let h := Harness.set_next_pattern (Harness.next_pattern h + 1) h in
        let h := if length ps <=? Harness.next_pattern h
                 then Harness.set_state (Some passed) h else h in
        Ok (set_base h self)
      else Ok self
    else Ok self
  else if type_is "multi_line" self && negb (Harness.ordered h) then
    ps ← attr (patterns self);
    m ← scan_unordered (Harness.regex h) line 0 ps (Harness.matches h);
    let h := Harness.set_matches m h in
    let h := if length (Harness.matches h) =? length (Harness.regex h)
             then Harness.set_state (Some passed) h else h in
    Ok (set_base h self)
  else Ok self.

(** The results-table write at the end of [handle]. *)
Definition report (h : Harness.t) : Harness.t :=
  if bool_decide (Harness.state h = Some passed)
  then Harness.set_tests (<[Harness.id h := "PASS"]> (Harness.tests h)) h
  else Harness.set_tests (<[Harness.id h := "FAIL"]> (Harness.tests h)) h.

(** [handle(self, line)] *)
Definition handle (self : t) (line : string) : result t :=
  self ← dispatch self line;
  let h := Harness.scan_fault (base self) line in
  let h := Harness.scan_coverage h line in
  Ok (set_base (report h) self).

(** [handle] called once per line; an exception ends the run. *)
Fixpoint run (self : t) (lines : list string) : result t :=
  match lines with
  | [] => Ok self
  | line :: lines' => self ← handle self line; run self lines'
  end.

End WithEngine.
End Console.

(** ** A regular-expression engine to run the console harness on

    The fragment of Python's pattern syntax built from ordinary characters,
    the dot, a postfix star, alternation and groups.  [search] only asks
    whether some substring matches, which does not depend on the order in
    which a backtracking matcher tries the alternatives, so derivatives
    decide it.  A pattern that uses any other special character lies outside
    the fragment and is refused like a malformed one. *)

Module MiniRe.

Inductive re :=
| Void
| Eps
| Chr (c : ascii)
| Dot
| Cat (r1 r2 : re)
| Alt (r1 r2 : re)
| Star (r : re).

Definition is_special (c : ascii) : bool :=
  existsb (Ascii.eqb c) (list_ascii_of_string ".^$*+?{}[]\|()").

(** [parse_seq] reads a concatenation up to a bar, a closing parenthesis
    or the end; [parse_alt] reads the alternatives of one group. *)
Fixpoint parse_seq (fuel : nat) (s : list ascii) : option (re * list ascii) :=
  match fuel with
  | 0 => None
  | S fuel =>
      match s with
      | [] => Some (Eps, [])
      | c :: s' =>
          if Ascii.eqb c "|"%char || Ascii.eqb c ")"%char then Some (Eps, s)
          else
            '(a, s1) ←
              (if Ascii.eqb c "("%char then
                 '(r, s1) ← parse_alt fuel s';
                 match s1 with
                 | d :: s2 => if Ascii.eqb d ")"%char then Some (r, s2) else None
                 | [] => None
                 end
               else if Ascii.eqb c "."%char then Some (Dot, s')
               else if is_special c then None
               else Some (Chr c, s'));
            let '(a, s2) :=
              match s1 with
              | d :: s2 => if Ascii.eqb d "*"%char then (Star a, s2) else (a, s1)
              | [] => (a, s1)
              end in
            '(r, s3) ← parse_seq fuel s2;
            Some (Cat a r, s3)
      end
  end
with parse_alt (fuel : nat) (s : list ascii) : option (re * list ascii) :=
  match fuel with
  | 0 => None
  | S fuel =>
      '(r1, s1) ← parse_seq fuel s;
      match s1 with
      | d :: s2 =>
          if Ascii.eqb d "|"%char then
            '(r2, s3) ← parse_alt fuel s2; Some (Alt r1 r2, s3)
          else Some (r1, s1)
      | [] => Some (r1, s1)
      end
  end.

Definition compile (p : string) : result re :=
  let s := list_ascii_of_string p in
  match parse_alt (2 * length s + 2) s with
  | Some (r, []) => Ok r
  | _ => Raise ReError
  end.

Fixpoint nullable (r : re) : bool :=
  match r with
  | Void | Chr _ | Dot => false
  | Eps | Star _ => true
  | Cat r1 r2 => nullable r1 && nullable r2
  | Alt r1 r2 => nullable r1 || nullable r2
  end.

Fixpoint deriv (c : ascii) (r : re) : re :=
  match r with
  | Void | Eps => Void
  | Chr d => if Ascii.eqb c d then Eps else Void
  | Dot => if Ascii.eqb c newline then Void else Eps
  | Cat r1 r2 =>
      if nullable r1 then Alt (Cat (deriv c r1) r2) (deriv c r2)
      else Cat (deriv c r1) r2
  | Alt r1 r2 => Alt (deriv c r1) (deriv c r2)
  | Star r1 => Cat (deriv c r1) (Star r1)
  end.

(** Some prefix of [s] matches [r]. *)
Fixpoint match_prefix (r : re) (s : list ascii) : bool :=
  nullable r ||
  match s with
  | [] => false
  | c :: s' => match_prefix (deriv c r) s'
  end.

(** Some substring of [s] matches [r]. *)
Fixpoint search (r : re) (s : list ascii) : bool :=
  match_prefix r s ||
  match s with
  | [] => false
  | _ :: s' => search r s'
  end.

Definition engine : RegexEngine := {|
  Pattern := re;
  re_compile := compile;
  re_search r line := search r (list_ascii_of_string line);
|}.

End MiniRe.

(** Descriptors and lines used to run the harness on concrete inputs. *)

Definition descriptor (config : option Config) (i : string)
    (tgs : list string) : Instance :=
  {| test := {| harness_config := config; test_id := i; tags := tgs |} |}.

Definition console_config (ty : string) (rs : list string) (ord : bool) : Config :=
  {| cfg_type := Some ty; cfg_regex := Some rs; cfg_repeat := None;
     cfg_ordered := Some ord; cfg_others := false |}.

Definition suite1 : Harness.t :=
  Test.configure Harness.init (descriptor None "suite1" []).

Definition suite1_ignore_faults : Harness.t :=
  Test.configure Harness.init (descriptor None "suite1" ["ignore_faults"]).

(** The compiled form of a pattern of the fragment, and the console
    harness that [configure] returns on a descriptor that it accepts. *)
Definition compiled (pattern : string) : MiniRe.re :=
  match MiniRe.compile pattern with
  | Ok r => r
  | Raise _ => MiniRe.Void
  end.

Definition configured_console (instance : Instance)
    : Console.t (E := MiniRe.engine) :=
  match Console.configure Console.init instance with
  | Ok c => c
  | Raise _ => Console.init
  end.

Definition hello_world_ordered : Instance :=
  descriptor (Some (console_config "multi_line" ["Hello"; "World.*done"] true))
    "console1" [].

Definition hello_world_unordered : Instance :=
  descriptor (Some (console_config "multi_line" ["Hello"; "World.*done"] false))
    "console1" [].

Definition twice_ready_unordered : Instance :=
  descriptor (Some (console_config "multi_line" ["ready"; "ready"] false))
    "console1" [].

Definition hello_one_line : Instance :=
  descriptor (Some (console_config "one_line" ["Hello (W|w)orld"] true))
    "console1" [].

Definition unterminated_one_line : Instance :=
  descriptor (Some (console_config "one_line" ["Booting (.*"] true))
    "console1" [].

Definition no_pattern_unordered : Instance :=
  descriptor (Some (console_config "multi_line" [] false)) "console1" [].

Definition no_harness_config : Instance := descriptor None "console1" [].

Definition second_pattern_unterminated : Instance :=
  descriptor
    (Some (console_config "multi_line" ["Hello"; "Booting (.*"; "done"] true))
    "console1" [].

(** ** Invariants and frames used in the statements *)

(** The configuration attributes of a harness, which no [handle] assigns. *)
Definition same_config (h h' : Harness.t) : Prop :=
  Harness.type h' = Harness.type h
  /\ Harness.regex h' = Harness.regex h
  /\ Harness.ordered h' = Harness.ordered h
  /\ Harness.repeat h' = Harness.repeat h
  /\ Harness.id h' = Harness.id h
  /\ Harness.fail_on_fault h' = Harness.fail_on_fault h.

(** The attributes that the mode dispatch never assigns. *)
Definition same_flags (h h' : Harness.t) : Prop :=
  Harness.tests h' = Harness.tests h
  /\ Harness.fault h' = Harness.fault h
  /\ Harness.capture_coverage h' = Harness.capture_coverage h.

(** The tail of [Console.handle]: the two scans and the table write. *)
Definition console_tail (h : Harness.t) (line : string) : Harness.t :=
  Console.report (Harness.scan_coverage (Harness.scan_fault h line) line).

(** What [Console.configure] establishes and [Console.handle] relies on:
    the compiled pattern of the selected mode is there, one per source
    string in multi-line mode. *)
Definition configured {E : RegexEngine} (c : Console.t) : Prop :=
  (Harness.type (Console.base c) = Some "one_line" ->
   is_Some (Console.pattern c))
  /\ (Harness.type (Console.base c) = Some "multi_line" ->
      exists ps, Console.patterns c = Some ps
                 /\ length ps = length (Harness.regex (Console.base c))).

(** In one pass of the unordered loop from position [i] on, some pattern
    whose source string is [k] matches the line. *)
Definition hit {E : RegexEngine} (regex : list string) (ps : list Pattern)
    (line : string) (i : nat) (k : string) : Prop :=
  exists j p, ps !! j = Some p /\ regex !! (i + j) = Some k
              /\ re_search p line = true.

(** The patterns left to match after some lines, when every line is tried
    against the first pattern left and no other: the ordered mode, seen
    from the pattern list. *)
Fixpoint remaining {E : RegexEngine} (ps : list Pattern)
    (lines : list string) : list Pattern :=
  match lines with
  | [] => ps
  | l :: ls =>
      match ps with
      | [] => []
      | p :: ps' =>
          if re_search p l then remaining ps' ls else remaining ps ls
      end
  end.

(** * Properties *)

(** ** The structured-result matcher, field by field *)

#[local] Arguments str_in : simpl never.
#[local] Arguments result_re_match : simpl never.

Ltac test_handle_cases h line :=
  unfold Test.handle, Harness.scan_fault, Harness.scan_coverage;
  destruct h as [st ty rx ms od rp ts i fof flt cc np];
  destruct (result_re_match line) as [[? ?]|],
    (str_in Test.RUN_PASSED line), (str_in Test.RUN_FAILED line),
    (str_in Harness.FAULT line), (str_in Harness.GCOV_START line),
    (str_in Harness.GCOV_END line), fof, flt;
  reflexivity.

Lemma Test_handle_state (h : Harness.t) (line : string) :
  Harness.state (Test.handle h line) =
    if str_in Test.RUN_FAILED line then Some failed
    else if str_in Test.RUN_PASSED line
         then (if Harness.fault h then Some failed else Some passed)
         else Harness.state h.
Proof. test_handle_cases h line. Qed.

Lemma Test_handle_fault (h : Harness.t) (line : string) :
  Harness.fault (Test.handle h line) =
    Harness.fault h || (Harness.fail_on_fault h && str_in Harness.FAULT line).
Proof. test_handle_cases h line. Qed.

Lemma Test_handle_fail_on_fault (h : Harness.t) (line : string) :
  Harness.fail_on_fault (Test.handle h line) = Harness.fail_on_fault h.
Proof. test_handle_cases h line. Qed.

Lemma Test_handle_id (h : Harness.t) (line : string) :
  Harness.id (Test.handle h line) = Harness.id h.
Proof. test_handle_cases h line. Qed.

Lemma Test_handle_tests (h : Harness.t) (line : string) :
  Harness.tests (Test.handle h line) =
    match result_re_match line with
    | Some (group1, group3) =>
        <[Some (format (Harness.id h) +:+ "." +:+ group3) := group1]>
          (Harness.tests h)
    | None => Harness.tests h
    end.
Proof. test_handle_cases h line. Qed.

Lemma Test_run_cons (h : Harness.t) (l : string) (ls : list string) :
  Test.run h (l :: ls) = Test.run (Test.handle h l) ls.
Proof. reflexivity. Qed.

Lemma Test_run_app (h : Harness.t) (ls ls' : list string) :
  Test.run h (ls ++ ls') = Test.run (Test.run h ls) ls'.
Proof. apply fold_left_app. Qed.

Lemma Test_run_fail_on_fault (ls : list string) (h : Harness.t) :
  Harness.fail_on_fault (Test.run h ls) = Harness.fail_on_fault h.
Proof.
  revert h. induction ls as [|l ls IH]; intros h; [reflexivity|].
  rewrite Test_run_cons, IH. apply Test_handle_fail_on_fault.
Qed.

(** The fault flag only ever goes from false to true. *)
Lemma Test_run_fault_mono (ls : list string) (h : Harness.t) :
  Harness.fault h = true -> Harness.fault (Test.run h ls) = true.
Proof.
  revert h. induction ls as [|l ls IH]; intros h Hf; [exact Hf|].
  rewrite Test_run_cons. apply IH. rewrite Test_handle_fault, Hf. reflexivity.
Qed.

(** ** The result-line grammar *)

Lemma strip_prefix_None (p s : string) :
  startswith s p = false -> strip_prefix p s = None.
Proof.
  revert s. induction p as [|c p IH]; intros [|d s]; cbn; try discriminate;
    try reflexivity.
  destruct (Ascii.eqb c d); cbn; [apply IH | reflexivity].
Qed.

Lemma strip_prefix_app (p s : string) : strip_prefix p (p +:+ s) = Some s.
Proof.
  induction p as [|c p IH]; [reflexivity|].
  change (String c p +:+ s) with (String c (p +:+ s)).
  cbn [strip_prefix]. rewrite Ascii.eqb_refl. exact IH.
Qed.

Lemma result_re_keyword_app (kw rest : string) :
  kw ∈ ["PASS"; "FAIL"; "SKIP"] ->
  result_re_keyword (kw +:+ rest) = Some (kw, rest).
Proof.
  intros Hkw.
  repeat (apply elem_of_cons in Hkw; destruct Hkw as [->|Hkw]);
    [reflexivity | reflexivity | reflexivity | inversion Hkw].
Qed.

Lemma result_re_match_line (kw pre name : string) :
  kw ∈ ["PASS"; "FAIL"; "SKIP"] ->
  pre = "test_" \/ (pre = "" /\ startswith name "test_" = false) ->
  dot_star name = name ->
  result_re_match (kw +:+ " - " +:+ pre +:+ name) = Some (kw, name).
Proof.
  intros Hkw Hpre Hname.
  unfold result_re_match.
  rewrite (result_re_keyword_app _ _ Hkw), strip_prefix_app.
  destruct Hpre as [->|[-> Hno]].
  - rewrite strip_prefix_app, Hname. reflexivity.
  - change ("" +:+ name) with name.
    rewrite (strip_prefix_None _ _ Hno), Hname. reflexivity.
Qed.

Lemma result_re_match_None (line : string) :
  (forall kw, kw ∈ ["PASS"; "FAIL"; "SKIP"] ->
              startswith line (kw +:+ " - ") = false) ->
  result_re_match line = None.
Proof.
  intros Hno. unfold result_re_match, result_re_keyword.
  assert (Hstep : forall kw, kw ∈ ["PASS"; "FAIL"; "SKIP"] ->
            forall rest, strip_prefix kw line = Some rest ->
                         strip_prefix " - " rest = None).
  { intros kw Hkw rest Hrest. specialize (Hno kw Hkw).
    apply strip_prefix_None.
    clear Hkw. revert line Hrest Hno.
    induction kw as [|c kw IH]; intros line Hrest Hno.
    - change ("" +:+ " - ") with " - " in Hno.
      destruct line; cbn in Hrest; injection Hrest as <-; exact Hno.
    - change (String c kw +:+ " - ") with (String c (kw +:+ " - ")) in Hno.
      destruct line as [|d l]; [discriminate Hrest|].
      cbn [strip_prefix] in Hrest. cbn [startswith] in Hno.
      destruct (Ascii.eqb c d); [|discriminate Hrest].
      apply (IH l); assumption. }
  destruct (strip_prefix "PASS" line) as [r|] eqn:HP.
  { rewrite (Hstep "PASS" ltac:(set_solver) r HP). reflexivity. }
  destruct (strip_prefix "FAIL" line) as [r|] eqn:HF.
  { rewrite (Hstep "FAIL" ltac:(set_solver) r HF). reflexivity. }
  destruct (strip_prefix "SKIP" line) as [r|] eqn:HS.
  { rewrite (Hstep "SKIP" ltac:(set_solver) r HS). reflexivity. }
  reflexivity.
Qed.

(** ** The structured-result matcher: result lines and banners *)

(** C5: a line made of PASS, FAIL or SKIP, the text ' - ', an optional
    'test_' and a name writes the keyword under the key id.name in the
    results table, whatever was stored there, and touches no other key; a
    line that does not start that way writes nothing.  With id suite1, the
    line 'PASS - test_foo' stores PASS under suite1.foo and 'FAIL - bar'
    stores FAIL under suite1.bar. *)
Theorem C5_result_line_written :
  (forall (h : Harness.t) (i kw pre name : string),
      Harness.id h = Some i ->
      kw = "PASS" \/ kw = "FAIL" \/ kw = "SKIP" ->
      pre = "test_" \/ (pre = "" /\ startswith name "test_" = false) ->
      dot_star name = name ->
      let h' := Test.handle h (kw +:+ " - " +:+ pre +:+ name) in
      Harness.tests h' = <[Some (i +:+ "." +:+ name) := kw]> (Harness.tests h)
      /\ Harness.tests h' !! Some (i +:+ "." +:+ name) = Some kw
      /\ (forall k, k <> Some (i +:+ "." +:+ name) ->
                    Harness.tests h' !! k = Harness.tests h !! k))
  /\ (forall (h : Harness.t) (line : string),
         (forall kw, kw = "PASS" \/ kw = "FAIL" \/ kw = "SKIP" ->
                     startswith line (kw +:+ " - ") = false) ->
         Harness.tests (Test.handle h line) = Harness.tests h)
  /\ Harness.tests (Test.handle suite1 "PASS - test_foo") !! Some "suite1.foo"
     = Some "PASS"
  /\ Harness.tests (Test.handle suite1 "FAIL - bar") !! Some "suite1.bar"
     = Some "FAIL".
Proof.
  assert (Hmem : forall kw, kw = "PASS" \/ kw = "FAIL" \/ kw = "SKIP" <->
                            kw ∈ ["PASS"; "FAIL"; "SKIP"]).
  { intros kw. rewrite !elem_of_cons, elem_of_nil. tauto. }
  assert (Hgen : forall (h : Harness.t) (i kw pre name : string),
      Harness.id h = Some i ->
      kw = "PASS" \/ kw = "FAIL" \/ kw = "SKIP" ->
      pre = "test_" \/ (pre = "" /\ startswith name "test_" = false) ->
      dot_star name = name ->
      Harness.tests (Test.handle h (kw +:+ " - " +:+ pre +:+ name))
      = <[Some (i +:+ "." +:+ name) := kw]> (Harness.tests h)).
  { intros h i kw pre name Hid Hkw Hpre Hname.
    rewrite Test_handle_tests, result_re_match_line, Hid by (by try apply Hmem).
    reflexivity. }
  split; [|split; [|split]].
  - intros h i kw pre name Hid Hkw Hpre Hname h'. subst h'.
    rewrite (Hgen h i kw pre name Hid Hkw Hpre Hname).
    split; [reflexivity|split].
    + apply lookup_insert_eq.
    + intros k Hk. by apply lookup_insert_ne.
  - intros h line Hno. rewrite Test_handle_tests, result_re_match_None; [done|].
    intros kw Hkw. apply Hno, Hmem, Hkw.
  - change "PASS - test_foo" with ("PASS" +:+ " - " +:+ "test_" +:+ "foo").
    change "suite1.foo" with ("suite1" +:+ "." +:+ "foo").
    rewrite (Hgen suite1 "suite1" "PASS" "test_" "foo");
      [apply lookup_insert_eq | reflexivity | auto | auto | reflexivity].
  - change "FAIL - bar" with ("FAIL" +:+ " - " +:+ "" +:+ "bar").
    change "suite1.bar" with ("suite1" +:+ "." +:+ "bar").
    rewrite (Hgen suite1 "suite1" "FAIL" "" "bar");
      [apply lookup_insert_eq | reflexivity | auto | | reflexivity].
    right. split; reflexivity.
Qed.

(** C5 on the line 'SKIP - test_foo' of suite1. *)
Lemma C5_result_line_written_witness :
  Harness.id suite1 = Some "suite1"
  /\ dot_star "foo" = "foo"
  /\ Harness.tests (Test.handle suite1 ("SKIP" +:+ " - " +:+ "test_" +:+ "foo"))
       !! Some ("suite1" +:+ "." +:+ "foo") = Some "SKIP".
Proof.
  split; [reflexivity|split; [reflexivity|]].
  apply (proj1 C5_result_line_written suite1 "suite1" "SKIP" "test_" "foo").
  - reflexivity.
  - right. right. reflexivity.
  - left. reflexivity.
  - reflexivity.
Defined.

(** C2, at inputs where the statement fails: a line that carries both
    banners ends failed although no fault was seen, and under the
    ignore_faults tag a fault line followed by the success banner ends
    passed. *)
Lemma C2_success_banner_counterexample :
  (str_in Test.RUN_PASSED
     "PROJECT EXECUTION SUCCESSFUL, was: PROJECT EXECUTION FAILED" = true
   /\ Harness.fault suite1 = false
   /\ Harness.state
        (Test.handle suite1
           "PROJECT EXECUTION SUCCESSFUL, was: PROJECT EXECUTION FAILED")
      = Some failed)
  /\ (str_in Harness.FAULT "***** ZEPHYR FATAL ERROR *****" = true
      /\ Harness.state
           (Test.run suite1_ignore_faults
              ["***** ZEPHYR FATAL ERROR *****"; "PROJECT EXECUTION SUCCESSFUL"])
         = Some passed).
Proof. vm_compute. repeat split. Qed.

(** C2 (amended): a line with the run-succeeded banner and without the
    run-failed banner sets the verdict to passed when no fault has been
    detected and to failed when one has.  With the fault policy active, a
    line with the fault marker followed, at any later point, by a line with
    the run-succeeded banner gives failed; the success banner alone with no
    earlier fault gives passed. *)
Theorem C2_success_banner (h : Harness.t) :
  (forall line,
      str_in Test.RUN_PASSED line = true ->
      str_in Test.RUN_FAILED line = false ->
      Harness.state (Test.handle h line)
      = Some (if Harness.fault h then failed else passed))
  /\ (forall l1 between l2,
         Harness.fail_on_fault h = true ->
         str_in Harness.FAULT l1 = true ->
         str_in Test.RUN_PASSED l2 = true ->
         Harness.state (Test.run h (l1 :: between ++ [l2])) = Some failed)
  /\ (Harness.fault h = false ->
      Harness.state (Test.handle h "PROJECT EXECUTION SUCCESSFUL")
      = Some passed).
Proof.
  split; [|split].
  - intros line Hp Hf. rewrite Test_handle_state, Hp, Hf.
    destruct (Harness.fault h); reflexivity.
  - intros l1 between l2 Hpol Hfault Hp.
    rewrite Test_run_cons, Test_run_app. cbn [Test.run fold_left].
    rewrite Test_handle_state, Hp, Test_run_fault_mono.
    + destruct (str_in Test.RUN_FAILED l2); reflexivity.
    + rewrite Test_handle_fault, Hpol, Hfault. apply orb_true_r.
  - intros Hf. rewrite Test_handle_state, Hf. reflexivity.
Qed.

(** C2 (amended) on a fault line, a result line and the success banner. *)
Lemma C2_success_banner_witness :
  Harness.fail_on_fault suite1 = true
  /\ Harness.state
       (Test.run suite1
          ("E: ZEPHYR FATAL ERROR" :: ["PASS - test_foo"]
             ++ ["PROJECT EXECUTION SUCCESSFUL"]))
     = Some failed.
Proof.
  split; [reflexivity|].
  apply (proj1 (proj2 (C2_success_banner suite1))); reflexivity.
Defined.

(** C10, at inputs where the statement fails: under the ignore_faults tag
    the line with both markers leaves the fault flag false, and a line that
    also carries the run-failed banner ends failed. *)
Lemma C10_same_line_counterexample :
  (str_in Harness.FAULT "ZEPHYR FATAL ERROR PROJECT EXECUTION SUCCESSFUL" = true
   /\ str_in Test.RUN_PASSED
        "ZEPHYR FATAL ERROR PROJECT EXECUTION SUCCESSFUL" = true
   /\ Harness.fault suite1_ignore_faults = false
   /\ Harness.fault
        (Test.handle suite1_ignore_faults
           "ZEPHYR FATAL ERROR PROJECT EXECUTION SUCCESSFUL") = false)
  /\ (str_in Harness.FAULT
        "ZEPHYR FATAL ERROR PROJECT EXECUTION SUCCESSFUL PROJECT EXECUTION FAILED"
      = true
      /\ str_in Test.RUN_PASSED
           "ZEPHYR FATAL ERROR PROJECT EXECUTION SUCCESSFUL PROJECT EXECUTION FAILED"
         = true
      /\ Harness.fault suite1 = false
      /\ Harness.state
           (Test.handle suite1
              "ZEPHYR FATAL ERROR PROJECT EXECUTION SUCCESSFUL PROJECT EXECUTION FAILED")
         = Some failed).
Proof. vm_compute. repeat split. Qed.

(** C10 (amended): with the fault policy active, a line that carries the
    fault marker and the run-succeeded banner, and not the run-failed
    banner, handled while no fault has been detected, sets the verdict to
    passed and the fault flag to true: the fault scan comes after the
    banner checks, so the marker does not veto the banner of its own
    line. *)
Theorem C10_same_line_no_veto (h : Harness.t) (line : string) :
  Harness.fail_on_fault h = true ->
  Harness.fault h = false ->
  str_in Harness.FAULT line = true ->
  str_in Test.RUN_PASSED line = true ->
  str_in Test.RUN_FAILED line = false ->
  Harness.state (Test.handle h line) = Some passed
  /\ Harness.fault (Test.handle h line) = true.
Proof.
  intros Hpol Hf Hm Hp Hnf.
  rewrite Test_handle_state, Test_handle_fault, Hpol, Hf, Hm, Hp, Hnf.
  split; reflexivity.
Qed.

(** C10 (amended) on the line that carries the marker and the banner. *)
Lemma C10_same_line_no_veto_witness :
  Harness.fail_on_fault suite1 = true
  /\ Harness.fault suite1 = false
  /\ Harness.state
       (Test.handle suite1 "ZEPHYR FATAL ERROR PROJECT EXECUTION SUCCESSFUL")
     = Some passed
  /\ Harness.fault
       (Test.handle suite1 "ZEPHYR FATAL ERROR PROJECT EXECUTION SUCCESSFUL")
     = true.
Proof.
  split; [reflexivity|split; [reflexivity|]].
  apply (C10_same_line_no_veto suite1
           "ZEPHYR FATAL ERROR PROJECT EXECUTION SUCCESSFUL"); reflexivity.
Defined.

(** ** The ordered dictionary *)

Lemma od_get_None (k : string) (d : odict) : od_get k d = None <-> k ∉ d.*1.
Proof.
  induction d as [|[k' v'] d IH]; cbn.
  - split; [intros _; apply not_elem_of_nil | reflexivity].
  - case_bool_decide as Hk; rewrite not_elem_of_cons.
    + split; [discriminate | intros [Hne _]; congruence].
    + rewrite IH. split; [intros ?; split; [congruence | assumption] | tauto].
Qed.

Lemma od_mem_false (k : string) (d : odict) :
  od_mem k d = false <-> od_get k d = None.
Proof.
  unfold od_mem. rewrite od_get_None. case_bool_decide; split; try done.
Qed.

Lemma od_set_fresh (k v : string) (d : odict) :
  k ∉ d.*1 -> od_set k v d = d ++ [(k, v)].
Proof.
  induction d as [|[k' v'] d IH]; cbn; [reflexivity|].
  rewrite not_elem_of_cons. intros [Hne Hd].
  case_bool_decide; [congruence|]. f_equal. auto.
Qed.

Lemma od_get_set_eq (k v : string) (d : odict) :
  od_get k (od_set k v d) = Some v.
Proof.
  induction d as [|[k' v'] d IH]; cbn.
  - by rewrite bool_decide_true.
  - case_bool_decide as Hk; cbn.
    + by rewrite bool_decide_true.
    + by rewrite bool_decide_false.
Qed.

Lemma od_get_set_ne (k k' v : string) (d : odict) :
  k <> k' -> od_get k' (od_set k v d) = od_get k' d.
Proof.
  intros Hne. induction d as [|[k0 v0] d IH]; cbn.
  - by rewrite bool_decide_false.
  - case_bool_decide as Hk; cbn.
    + subst k0. by rewrite !bool_decide_false.
    + case_bool_decide; [reflexivity | exact IH].
Qed.

(** ** The console matcher: what [handle] changes and what it keeps *)

Lemma bind_Ok {A B} (m : result A) (f : A -> result B) (b : B) :
  m ≫= f = Ok b -> exists a, m = Ok a /\ f a = Ok b.
Proof. destruct m as [a|e]; [eauto | discriminate]. Qed.

Ltac inv_result :=
  repeat match goal with
         | H : _ ≫= _ = Ok _ |- _ =>
             let a := fresh "a" in
             let Ha := fresh "Ha" in
             apply bind_Ok in H as (a & Ha & H)
         | H : Ok _ = Ok _ |- _ => injection H as H
         | H : Raise _ = Ok _ |- _ => discriminate H
         | H : attr ?o = Ok _ |- _ =>
             destruct o eqn:?; [cbn in H | discriminate H]
         end.

Ltac dispatch_cases :=
  repeat first
    [ progress inv_result
    | match goal with
      | H : (if ?b then _ else _) = Ok _ |- _ => destruct b eqn:?
      end ].

Lemma same_config_refl (h : Harness.t) : same_config h h.
Proof. repeat split. Qed.

Lemma same_config_trans (h1 h2 h3 : Harness.t) :
  same_config h1 h2 -> same_config h2 h3 -> same_config h1 h3.
Proof.
  unfold same_config. intros (?&?&?&?&?&?) (?&?&?&?&?&?).
  repeat split; congruence.
Qed.

Ltac console_tail_cases h line :=
  unfold console_tail, Console.report, Harness.scan_fault,
    Harness.scan_coverage;
  destruct h as [st ty rx ms od rp ts i fof flt cc np];
  destruct (str_in Harness.FAULT line), (str_in Harness.GCOV_START line),
    (str_in Harness.GCOV_END line), fof, flt;
  cbn; try case_bool_decide; cbn; try case_bool_decide; try reflexivity;
  try congruence.

Lemma console_tail_config (h : Harness.t) (line : string) :
  same_config h (console_tail h line).
Proof. unfold same_config. console_tail_cases h line; repeat split. Qed.

Lemma console_tail_state (h : Harness.t) (line : string) :
  Harness.state (console_tail h line) = Harness.state h.
Proof. console_tail_cases h line. Qed.

Lemma console_tail_next_pattern (h : Harness.t) (line : string) :
  Harness.next_pattern (console_tail h line) = Harness.next_pattern h.
Proof. console_tail_cases h line. Qed.

Lemma console_tail_matches (h : Harness.t) (line : string) :
  Harness.matches (console_tail h line) = Harness.matches h.
Proof. console_tail_cases h line. Qed.

Lemma console_tail_fault (h : Harness.t) (line : string) :
  Harness.fault (console_tail h line) =
    Harness.fault h || (Harness.fail_on_fault h && str_in Harness.FAULT line).
Proof. console_tail_cases h line. Qed.

Lemma console_tail_tests (h : Harness.t) (line : string) :
  Harness.tests (console_tail h line) =
    <[Harness.id h :=
        if bool_decide (Harness.state h = Some passed) then "PASS" else "FAIL"]>
      (Harness.tests h).
Proof. console_tail_cases h line. Qed.

Section ConsoleFacts.

Context {E : RegexEngine}.
Implicit Types (c : Console.t) (line : string) (ps : list Pattern).

Lemma Console_handle_unfold c line :
  Console.handle c line =
    c1 ← Console.dispatch c line;
    Ok (Console.set_base (console_tail (Console.base c1) line) c1).
Proof. reflexivity. Qed.

Lemma scan_unordered_total (regex : list string) line ps :
  forall i (m : odict),
    i + length ps <= length regex ->
    exists m', Console.scan_unordered regex line i ps m = Ok m'.
Proof.
  induction ps as [|p ps IH]; intros i m Hlen; cbn; [eauto|].
  cbn in Hlen. unfold index.
  destruct (lookup_lt_is_Some_2 regex i ltac:(lia)) as [r ->]. cbn.
  apply IH. lia.
Qed.

Lemma dispatch_frame c line c1 :
  Console.dispatch c line = Ok c1 ->
  Console.pattern c1 = Console.pattern c
  /\ Console.patterns c1 = Console.patterns c
  /\ same_config (Console.base c) (Console.base c1)
  /\ same_flags (Console.base c) (Console.base c1).
Proof.
  unfold Console.dispatch, same_config, same_flags. intros H.
  dispatch_cases; subst; cbn;
    repeat match goal with
           | |- context [if ?b then _ else _] => destruct b; cbn
           end;
    repeat split; congruence.
Qed.

Lemma init_configured : configured Console.init.
Proof. split; discriminate. Qed.

Lemma compile_all_length (rs : list string) :
  forall ps, Console.compile_all rs = Ok ps -> length ps = length rs.
Proof.
  induction rs as [|r rs IH]; cbn; intros ps H.
  - injection H as <-. reflexivity.
  - inv_result. subst. cbn. f_equal. auto.
Qed.

Lemma configure_configured c (instance : Instance) c' :
  Console.configure c instance = Ok c' -> configured c'.
Proof.
  unfold Console.configure, Console.type_is. intros H.
  set (h := Harness.configure (Console.base c) instance) in *.
  change (Console.base (Console.set_base h c)) with h in H.
  case_bool_decide as H1; [|case_bool_decide as H2].
  - inv_result. subst. split; cbn; [eauto|].
    intros Hm. rewrite H1 in Hm. discriminate.
  - inv_result. subst. split; cbn; [contradiction|].
    intros _. eexists. split; [reflexivity|].
    by apply compile_all_length.
  - inv_result. subst. split; cbn; contradiction.
Qed.

Lemma dispatch_total c line :
  configured c -> exists c1, Console.dispatch c line = Ok c1.
Proof.
  intros [H1 Hm]. unfold Console.dispatch, Console.type_is.
  case_bool_decide as T1.
  - destruct (H1 T1) as [p ->]. cbn. eauto.
  - case_bool_decide as T2; cbn [andb]; [|eauto].
    destruct (Hm T2) as (ps & -> & Hlen).
    destruct (Harness.ordered (Console.base c));
      cbn [attr mbind result_bind andb negb].
    + destruct (Nat.ltb_spec (Harness.next_pattern (Console.base c))
                  (length ps)) as [Hlt|]; [|eauto].
      unfold index.
      destruct (lookup_lt_is_Some_2 ps _ Hlt) as [p ->].
      cbn [mbind result_bind].
      destruct (re_search p line); eauto.
    + destruct (scan_unordered_total (Harness.regex (Console.base c))
                  line ps 0 (Harness.matches (Console.base c))
                  ltac:(lia)) as [m ->].
      cbn. eauto.
Qed.

(** [handle] never assigns the configuration or the compiled patterns. *)
Lemma handle_frame c line c' :
  Console.handle c line = Ok c' ->
  Console.pattern c' = Console.pattern c
  /\ Console.patterns c' = Console.patterns c
  /\ same_config (Console.base c) (Console.base c').
Proof.
  rewrite Console_handle_unfold. intros H. inv_result. subst c'.
  destruct (dispatch_frame _ _ _ Ha) as (Hp & Hps & Hc & _).
  cbn. repeat split; try assumption.
  all: eapply same_config_trans; [exact Hc | apply console_tail_config].
Qed.

Lemma handle_configured c line :
  configured c ->
  exists c', Console.handle c line = Ok c' /\ configured c'.
Proof.
  intros Hc. destruct (dispatch_total c line Hc) as [c1 H1].
  assert (H : exists c', Console.handle c line = Ok c').
  { rewrite Console_handle_unfold, H1. cbn. eauto. }
  destruct H as [c' H]. exists c'. split; [exact H|].
  destruct (handle_frame _ _ _ H) as (Hp & Hps & Hty & Hrx & _).
  destruct Hc as [Hone Hmulti].
  split; rewrite ?Hp, ?Hps, ?Hty, ?Hrx; assumption.
Qed.

Lemma Console_run_cons c line (lines : list string) :
  Console.run c (line :: lines) =
    c' ← Console.handle c line; Console.run c' lines.
Proof. reflexivity. Qed.

Lemma Console_run_app (l1 l2 : list string) :
  forall c, Console.run c (l1 ++ l2) = c' ← Console.run c l1; Console.run c' l2.
Proof.
  induction l1 as [|l l1 IH]; intros c; [reflexivity|].
  cbn [app]. rewrite !Console_run_cons.
  destruct (Console.handle c l) as [c'|e]; cbn; [apply IH | reflexivity].
Qed.

(** A configured console harness handles every line of every run. *)
Lemma run_configured (lines : list string) :
  forall c, configured c ->
    exists c', Console.run c lines = Ok c' /\ configured c'.
Proof.
  induction lines as [|l lines IH]; intros c Hc; [cbn; eauto|].
  destruct (handle_configured c l Hc) as (c1 & H1 & Hc1).
  rewrite Console_run_cons, H1. cbn. apply IH, Hc1.
Qed.

Lemma run_frame (lines : list string) :
  forall c c', Console.run c lines = Ok c' ->
    Console.pattern c' = Console.pattern c
    /\ Console.patterns c' = Console.patterns c
    /\ same_config (Console.base c) (Console.base c').
Proof.
  induction lines as [|l lines IH]; intros c c' H.
  - injection H as <-. auto using same_config_refl.
  - rewrite Console_run_cons in H. inv_result.
    destruct (handle_frame _ _ _ Ha) as (Hp & Hps & Hc).
    destruct (IH _ _ H) as (Hp' & Hps' & Hc').
    repeat split; try congruence. 
    all: eapply same_config_trans; eassumption.
Qed.

(** *** The unordered loop *)

Lemma hit_cons (regex : list string) p ps line i k :
  hit regex (p :: ps) line i k <->
  (regex !! i = Some k /\ re_search p line = true)
  \/ hit regex ps line (S i) k.
Proof.
  unfold hit. split.
  - intros (j & q & Hq & Hr & Hs). destruct j as [|j]; cbn in Hq.
    + injection Hq as ->. rewrite Nat.add_0_r in Hr. auto.
    + right. exists j, q. rewrite Nat.add_succ_comm. auto.
  - intros [[Hr Hs]|(j & q & Hq & Hr & Hs)].
    + exists 0, p. rewrite Nat.add_0_r. auto.
    + exists (S j), q. rewrite <- Nat.add_succ_comm. auto.
Qed.

Lemma scan_unordered_spec (regex : list string) line ps :
  forall i (m m' : odict),
    Console.scan_unordered regex line i ps m = Ok m' ->
    (forall k v, od_get k m = Some v -> od_get k m' = Some v)
    /\ (forall k, od_get k m = None -> hit regex ps line i k ->
                  od_get k m' = Some line)
    /\ (forall k, od_get k m = None -> ~ hit regex ps line i k ->
                  od_get k m' = None).
Proof.
  induction ps as [|p ps IH]; intros i m m' H; cbn in H.
  - injection H as <-. split; [auto|split; [|auto]].
    intros k _ (j & q & Hq & _). destruct j; discriminate.
  - inv_result. unfold index in Ha.
    destruct (regex !! i) as [r|] eqn:Hr; [|discriminate].
    injection Ha as <-.
    destruct (IH _ _ _ H) as (Hkeep & Hnew & Hnone). clear IH H.
    destruct (re_search p line && negb (od_mem r m)) eqn:Hset.
    + apply andb_true_iff in Hset as [Hs Hfresh].
      apply negb_true_iff, od_mem_false in Hfresh.
      split; [|split].
      * intros k v Hk. apply Hkeep. rewrite od_get_set_ne; congruence.
      * intros k Hk Hhit. destruct (decide (r = k)) as [->|Hne].
        -- apply Hkeep, od_get_set_eq.
        -- apply Hnew; [by rewrite od_get_set_ne|].
           apply hit_cons in Hhit as [[? _]|]; [congruence | assumption].
      * intros k Hk Hhit. rewrite hit_cons in Hhit.
        destruct (decide (r = k)) as [->|Hne]; [tauto|].
        apply Hnone; [by rewrite od_get_set_ne | tauto].
    + split; [auto|split].
      * intros k Hk Hhit.
        apply hit_cons in Hhit as [[Hrk Hs]|Hhit]; [|auto].
        assert (r = k) as -> by congruence.
        apply od_mem_false in Hk. rewrite Hs, Hk in Hset. discriminate.
      * intros k Hk Hhit. rewrite hit_cons in Hhit.
        apply Hnone; [assumption | tauto].
Qed.

(** The keys stay distinct, come from [regex], and none is dropped. *)
Lemma scan_unordered_keys (regex : list string) line ps :
  forall i (m m' : odict),
    Console.scan_unordered regex line i ps m = Ok m' ->
    (NoDup m.*1 -> NoDup m'.*1)
    /\ (m.*1 ⊆ regex -> m'.*1 ⊆ regex)
    /\ length m <= length m'.
Proof.
  induction ps as [|p ps IH]; intros i m m' H; cbn in H.
  - injection H as <-. auto.
  - inv_result. unfold index in Ha.
    destruct (regex !! i) as [r|] eqn:Hr; [|discriminate].
    injection Ha as <-.
    destruct (IH _ _ _ H) as (Hnd & Hsub & Hlen). clear IH H.
    destruct (re_search p line && negb (od_mem r m)) eqn:Hset; [|auto].
    apply andb_true_iff in Hset as [_ Hfresh].
    apply negb_true_iff, od_mem_false, od_get_None in Hfresh.
    rewrite (od_set_fresh _ _ _ Hfresh) in *.
    rewrite fmap_app, length_app in *. cbn in *.
    split; [|split].
    + intros Hm. apply Hnd, NoDup_app. split; [assumption|].
      split; [|apply NoDup_singleton].
      intros x Hx ->%list_elem_of_singleton. contradiction.
    + intros Hm. apply Hsub. intros x [Hx| ->%list_elem_of_singleton]%elem_of_app.
      * by apply Hm.
      * apply list_elem_of_lookup. eauto.
    + lia.
Qed.

(** Whether a pass of the loop hits a key can be decided. *)
Lemma classic_hit (regex : list string) ps line k :
  forall i, hit regex ps line i k \/ ~ hit regex ps line i k.
Proof.
  induction ps as [|p ps IH]; intros i.
  - right. intros (j & q & Hq & _). destruct j; discriminate.
  - rewrite hit_cons. destruct (IH (S i)) as [?|Hno]; [auto|].
    destruct (decide (regex !! i = Some k)) as [Hr|Hr];
      [destruct (re_search p line) eqn:Hs|]; [auto| |];
      right; intros [[? ?]|?]; congruence || contradiction.
Qed.

(** *** [handle], mode by mode *)

Lemma type_is_true c (name : string) :
  Harness.type (Console.base c) = Some name -> Console.type_is name c = true.
Proof. intros H. by apply bool_decide_eq_true. Qed.

Lemma type_is_false c (name name' : string) :
  Harness.type (Console.base c) = Some name -> name <> name' ->
  Console.type_is name' c = false.
Proof. intros H Hne. apply bool_decide_eq_false. congruence. Qed.

Lemma handle_after_dispatch c line c1 :
  Console.dispatch c line = Ok c1 ->
  exists c', Console.handle c line = Ok c'
    /\ Harness.state (Console.base c') = Harness.state (Console.base c1)
    /\ Harness.next_pattern (Console.base c')
       = Harness.next_pattern (Console.base c1)
    /\ Harness.matches (Console.base c') = Harness.matches (Console.base c1).
Proof.
  intros H. rewrite Console_handle_unfold, H. cbn. eexists.
  split; [reflexivity|]. cbn.
  by rewrite console_tail_state, console_tail_next_pattern,
    console_tail_matches.
Qed.

Lemma dispatch_ordered c line ps :
  Harness.type (Console.base c) = Some "multi_line" ->
  Harness.ordered (Console.base c) = true ->
  Console.patterns c = Some ps ->
  exists c1, Console.dispatch c line = Ok c1
    /\ match ps !! Harness.next_pattern (Console.base c) with
       | Some p =>
           if re_search p line then
             Harness.next_pattern (Console.base c1)
             = Harness.next_pattern (Console.base c) + 1
             /\ Harness.state (Console.base c1)
                = (if length ps <=? Harness.next_pattern (Console.base c) + 1
                   then Some passed
                   else Harness.state (Console.base c))
           else c1 = c
       | None => c1 = c
       end.
Proof.
  intros Hty Hord Hps. unfold Console.dispatch.
  rewrite (type_is_false _ _ "one_line" Hty), (type_is_true _ _ Hty),
    Hord, Hps by discriminate.
  cbn [andb attr mbind result_bind].
  destruct (Nat.ltb_spec (Harness.next_pattern (Console.base c)) (length ps))
    as [Hlt|Hge].
  - unfold index. destruct (lookup_lt_is_Some_2 ps _ Hlt) as [p ->].
    cbn [mbind result_bind].
    destruct (re_search p line); eexists; (split; [reflexivity|]);
      [|reflexivity].
    cbn. destruct (length ps <=? _); split; reflexivity.
  - rewrite (lookup_ge_None_2 ps _ Hge). eauto.
Qed.

Lemma dispatch_unordered c line ps c1 :
  Harness.type (Console.base c) = Some "multi_line" ->
  Harness.ordered (Console.base c) = false ->
  Console.patterns c = Some ps ->
  Console.dispatch c line = Ok c1 ->
  exists m', Console.scan_unordered (Harness.regex (Console.base c)) line 0 ps
               (Harness.matches (Console.base c)) = Ok m'
    /\ Harness.matches (Console.base c1) = m'
    /\ Harness.state (Console.base c1)
       = (if length m' =? length (Harness.regex (Console.base c))
          then Some passed else Harness.state (Console.base c)).
Proof.
  intros Hty Hord Hps. unfold Console.dispatch.
  rewrite (type_is_false _ _ "one_line" Hty), (type_is_true _ _ Hty),
    Hord, Hps by discriminate.
  cbn [andb negb attr mbind result_bind]. intros H.
  inv_result. subst c1. eexists. split; [exact Ha|]. cbn.
  destruct (length a =? _); cbn; auto.
Qed.

(** The mode dispatch either keeps the verdict or sets it to passed. *)
Lemma dispatch_state c line c1 :
  Console.dispatch c line = Ok c1 ->
  Harness.state (Console.base c1) = Harness.state (Console.base c)
  \/ Harness.state (Console.base c1) = Some passed.
Proof.
  unfold Console.dispatch. intros H.
  dispatch_cases; subst; cbn;
    repeat match goal with
           | |- context [if ?b then _ else _] => destruct b; cbn
           end; auto.
Qed.

Lemma handle_state c line c' :
  Console.handle c line = Ok c' ->
  Harness.state (Console.base c') = Harness.state (Console.base c)
  \/ Harness.state (Console.base c') = Some passed.
Proof.
  rewrite Console_handle_unfold. intros H. inv_result. subst c'.
  cbn. rewrite console_tail_state. by eapply dispatch_state.
Qed.

Lemma handle_tests c line c' :
  Console.handle c line = Ok c' ->
  Harness.tests (Console.base c')
  = <[Harness.id (Console.base c) :=
        if bool_decide (Harness.state (Console.base c') = Some passed)
        then "PASS" else "FAIL"]> (Harness.tests (Console.base c)).
Proof.
  rewrite Console_handle_unfold. intros H. inv_result. subst c'.
  destruct (dispatch_frame _ _ _ Ha)
    as (_ & _ & (_ & _ & _ & _ & Hid & _) & (Hts & _)).
  cbn. by rewrite console_tail_tests, console_tail_state, Hid, Hts.
Qed.

Lemma handle_fault c line c' :
  Console.handle c line = Ok c' ->
  Harness.fault (Console.base c')
  = Harness.fault (Console.base c)
    || (Harness.fail_on_fault (Console.base c) && str_in Harness.FAULT line).
Proof.
  rewrite Console_handle_unfold. intros H. inv_result. subst c'.
  destruct (dispatch_frame _ _ _ Ha)
    as (_ & _ & (_ & _ & _ & _ & _ & Hfof) & (_ & Hf & _)).
  cbn. by rewrite console_tail_fault, Hfof, Hf.
Qed.

(** *** [configure] on a fresh harness *)

Lemma configure_base c (instance : Instance) c' :
  Console.configure c instance = Ok c' ->
  Console.base c' = Harness.configure (Console.base c) instance.
Proof.
  unfold Console.configure. intros H.
  dispatch_cases; subst; reflexivity.
Qed.

(** [Harness.configure] assigns configuration attributes only. *)
Lemma Harness_configure_run_state (h : Harness.t) (instance : Instance) :
  let h' := Harness.configure h instance in
  Harness.state h' = Harness.state h
  /\ Harness.matches h' = Harness.matches h
  /\ Harness.tests h' = Harness.tests h
  /\ Harness.fault h' = Harness.fault h
  /\ Harness.capture_coverage h' = Harness.capture_coverage h
  /\ Harness.next_pattern h' = Harness.next_pattern h
  /\ Harness.id h' = Some (test_id (test instance))
  /\ Harness.fail_on_fault h'
     = (if bool_decide ("ignore_faults" ∈ tags (test instance))
        then false else Harness.fail_on_fault h).
Proof.
  unfold Harness.configure.
  destruct (harness_config (test instance)) as [cfg|];
    [destruct (truthy (Some cfg))|];
    destruct (bool_decide ("ignore_faults" ∈ tags (test instance)));
    cbn; repeat split.
Qed.

Lemma Harness_configure_config (h : Harness.t) (instance : Instance)
    (cfg : Config) :
  harness_config (test instance) = Some cfg ->
  is_Some (cfg_type cfg) ->
  let h' := Harness.configure h instance in
  Harness.type h' = cfg_type cfg
  /\ Harness.regex h' = default [] (cfg_regex cfg)
  /\ Harness.repeat h' = default 1%Z (cfg_repeat cfg)
  /\ Harness.ordered h' = default true (cfg_ordered cfg).
Proof.
  intros Hcfg [ty Hty]. unfold Harness.configure. rewrite Hcfg.
  unfold truthy. rewrite Hty. cbn. repeat split.
Qed.

Lemma configure_multi_line (instance : Instance) (cfg : Config)
    (rs : list string) ps :
  harness_config (test instance) = Some cfg ->
  cfg_type cfg = Some "multi_line" ->
  cfg_regex cfg = Some rs ->
  Console.compile_all rs = Ok ps ->
  exists c, Console.configure Console.init instance = Ok c
    /\ Console.patterns c = Some ps
    /\ Console.base c = Harness.configure Harness.init instance.
Proof.
  intros Hcfg Hty Hrs Hps. unfold Console.configure, Console.type_is.
  change (Console.base (Console.set_base ?h _)) with h.
  destruct (Harness_configure_config Harness.init instance cfg Hcfg)
    as (Hty' & Hrs' & _); [rewrite Hty; eauto|].
  cbn [Console.init Console.base].
  rewrite Hty in Hty'. rewrite Hrs in Hrs'. cbn in Hrs'.
  rewrite Hty', Hrs', Hps.
  rewrite bool_decide_false, bool_decide_true by done.
  cbn. eauto.
Qed.

End ConsoleFacts.

(** ** The console matcher: the claims *)

Section ConsoleClaims.

Context {E : RegexEngine}.
Implicit Types (c : Console.t) (line : string) (ps : list Pattern).

(** C3: in multi-line ordered mode, a line that matches the pattern at the
    cursor moves the cursor one step and sets the verdict to passed
    exactly when the cursor reaches the number of patterns; a line that
    does not match it, whatever later pattern it matches, leaves cursor
    and verdict as they are.  Configured with two patterns A and B, a
    line matching A followed by a line matching B gives passed, and a
    first line that does not match A changes nothing. *)
Theorem C3_ordered_mode :
  (forall c ps line p,
      Harness.type (Console.base c) = Some "multi_line" ->
      Harness.ordered (Console.base c) = true ->
      Console.patterns c = Some ps ->
      ps !! Harness.next_pattern (Console.base c) = Some p ->
      exists c', Console.handle c line = Ok c'
        /\ if re_search p line then
             Harness.next_pattern (Console.base c')
             = Harness.next_pattern (Console.base c) + 1
             /\ Harness.state (Console.base c')
                = (if bool_decide
                        (Harness.next_pattern (Console.base c) + 1 = length ps)
                   then Some passed else Harness.state (Console.base c))
           else
             Harness.next_pattern (Console.base c')
             = Harness.next_pattern (Console.base c)
             /\ Harness.state (Console.base c')
                = Harness.state (Console.base c))
  /\ (forall (instance : Instance) (cfg : Config) (A B : string) pA pB,
         harness_config (test instance) = Some cfg ->
         cfg_type cfg = Some "multi_line" ->
         cfg_regex cfg = Some [A; B] ->
         default true (cfg_ordered cfg) = true ->
         re_compile A = Ok pA ->
         re_compile B = Ok pB ->
         exists c, Console.configure Console.init instance = Ok c
           /\ (forall line1 line2,
                  re_search pA line1 = true ->
                  re_search pB line2 = true ->
                  exists c', Console.run c [line1; line2] = Ok c'
                    /\ Harness.state (Console.base c') = Some passed)
           /\ (forall line,
                  re_search pA line = false ->
                  exists c', Console.handle c line = Ok c'
                    /\ Harness.next_pattern (Console.base c') = 0
                    /\ Harness.state (Console.base c') = None)).
Proof.
  assert (Hstep : forall c ps line p,
      Harness.type (Console.base c) = Some "multi_line" ->
      Harness.ordered (Console.base c) = true ->
      Console.patterns c = Some ps ->
      ps !! Harness.next_pattern (Console.base c) = Some p ->
      exists c', Console.handle c line = Ok c'
        /\ if re_search p line then
             Harness.next_pattern (Console.base c')
             = Harness.next_pattern (Console.base c) + 1
             /\ Harness.state (Console.base c')
                = (if bool_decide
                        (Harness.next_pattern (Console.base c) + 1 = length ps)
                   then Some passed else Harness.state (Console.base c))
           else
             Harness.next_pattern (Console.base c')
             = Harness.next_pattern (Console.base c)
             /\ Harness.state (Console.base c')
                = Harness.state (Console.base c)).
  { intros c ps line p Hty Hord Hps Hp.
    destruct (dispatch_ordered c line ps Hty Hord Hps) as (c1 & Hd & Hc1).
    destruct (handle_after_dispatch _ _ _ Hd) as (c' & Hh & Hst & Hnp & _).
    exists c'. split; [exact Hh|]. rewrite Hst, Hnp.
    rewrite Hp in Hc1. apply lookup_lt_Some in Hp.
    destruct (re_search p line); [|by subst c1].
    destruct Hc1 as [-> ->]. split; [reflexivity|].
    destruct (Nat.leb_spec (length ps)
                (Harness.next_pattern (Console.base c) + 1));
      case_bool_decide; (reflexivity || lia). }
  split; [exact Hstep|].
  intros instance cfg A B pA pB Hcfg Hty Hrs Hord HA HB.
  destruct (configure_multi_line instance cfg [A; B] [pA; pB] Hcfg Hty Hrs)
    as (c & Hc & Hps & Hbase).
  { cbn. rewrite HA. cbn. rewrite HB. reflexivity. }
  destruct (Harness_configure_config Harness.init instance cfg Hcfg)
    as (Hty' & _ & _ & Hord'); [rewrite Hty; eauto|].
  destruct (Harness_configure_run_state Harness.init instance)
    as (Hst & _ & _ & _ & _ & Hnp & _).
  rewrite <- Hbase in Hty', Hord', Hst, Hnp. cbn in Hst, Hnp.
  rewrite Hty in Hty'. rewrite Hord in Hord'.
  exists c. split; [exact Hc|]. split.
  - intros line1 line2 H1 H2.
    destruct (Hstep c [pA; pB] line1 pA Hty' Hord' Hps) as (c1 & Hh1 & Hc1).
    { by rewrite Hnp. }
    rewrite H1, Hnp, Hst in Hc1. destruct Hc1 as [Hnp1 Hst1]. cbn in Hnp1.
    destruct (handle_frame _ _ _ Hh1) as (_ & Hps1 & Hty1 & _ & Hord1 & _).
    rewrite Hty' in Hty1. rewrite Hord' in Hord1. rewrite Hps in Hps1.
    destruct (Hstep c1 [pA; pB] line2 pB Hty1 Hord1 Hps1) as (c2 & Hh2 & Hc2).
    { by rewrite Hnp1. }
    rewrite H2, Hnp1 in Hc2. destruct Hc2 as [_ Hst2].
    exists c2. split; [|exact Hst2].
    rewrite Console_run_cons, Hh1. cbn [mbind result_bind].
    rewrite Console_run_cons, Hh2. reflexivity.
  - intros line H1.
    destruct (Hstep c [pA; pB] line pA Hty' Hord' Hps) as (c1 & Hh1 & Hc1).
    { by rewrite Hnp. }
    rewrite H1, Hnp, Hst in Hc1. eauto.
Qed.

(** C6: every call of the console matcher's [handle] ends by writing the
    results-table entry of the harness id: PASS when the verdict is passed
    at that point, FAIL otherwise, so that a harness still running and a
    failed one leave the same entry FAIL. *)
Theorem C6_console_table_entry c line :
  configured c ->
  exists c', Console.handle c line = Ok c'
    /\ Harness.id (Console.base c') = Harness.id (Console.base c)
    /\ Harness.tests (Console.base c')
       = <[Harness.id (Console.base c) :=
             if bool_decide (Harness.state (Console.base c') = Some passed)
             then "PASS" else "FAIL"]> (Harness.tests (Console.base c))
    /\ (Harness.state (Console.base c') = Some passed ->
        Harness.tests (Console.base c') !! Harness.id (Console.base c')
        = Some "PASS")
    /\ (Harness.state (Console.base c') = None
        \/ Harness.state (Console.base c') = Some failed ->
        Harness.tests (Console.base c') !! Harness.id (Console.base c')
        = Some "FAIL").
Proof.
  intros Hc. destruct (handle_configured c line Hc) as (c' & Hh & _).
  exists c'. split; [exact Hh|].
  destruct (handle_frame _ _ _ Hh) as (_ & _ & _ & _ & _ & _ & Hid & _).
  pose proof (handle_tests _ _ _ Hh) as Hts.
  split; [exact Hid|]. split; [exact Hts|].
  rewrite Hts, Hid, lookup_insert_eq.
  split; intros Hst.
  - by rewrite bool_decide_true.
  - rewrite bool_decide_false; [reflexivity|].
    destruct Hst as [-> | ->]; discriminate.
Qed.

Lemma run_state (lines : list string) :
  forall c c', Console.run c lines = Ok c' ->
    Harness.state (Console.base c') = Harness.state (Console.base c)
    \/ Harness.state (Console.base c') = Some passed.
Proof.
  induction lines as [|l lines IH]; intros c c' H.
  - injection H as <-. auto.
  - rewrite Console_run_cons in H. inv_result.
    destruct (handle_state _ _ _ Ha) as [H1|H1], (IH _ _ H) as [H2|H2];
      rewrite ?H2, ?H1; auto.
Qed.

Lemma run_fault_off (lines : list string) :
  forall c c', Console.run c lines = Ok c' ->
    Harness.fail_on_fault (Console.base c) = false ->
    Harness.fault (Console.base c) = false ->
    Harness.fault (Console.base c') = false.
Proof.
  induction lines as [|l lines IH]; intros c c' H Hpol Hf.
  - by injection H as <-.
  - rewrite Console_run_cons in H. inv_result.
    destruct (handle_frame _ _ _ Ha) as (_ & _ & _ & _ & _ & _ & _ & Hpol').
    apply (IH _ _ H); [congruence|].
    by rewrite (handle_fault _ _ _ Ha), Hpol, Hf.
Qed.

(** C1 (amended): once the verdict is passed or failed it never returns to
    running.  In the console matcher a passed verdict stays passed and no
    line makes the verdict failed.  In the structured-result matcher the
    banners of the current line decide: passed becomes failed only on a
    line with the run-failed banner or through the fault veto on the
    run-succeeded banner, and failed becomes passed exactly on a line with
    the run-succeeded banner and without the run-failed banner while no
    fault has been detected. *)
Theorem C1_verdict_transitions :
  (forall (h : Harness.t) (lines : list string),
      Harness.state h <> None -> Harness.state (Test.run h lines) <> None)
  /\ (forall c (lines : list string),
         configured c ->
         exists c', Console.run c lines = Ok c'
           /\ (Harness.state (Console.base c) <> None ->
               Harness.state (Console.base c') <> None)
           /\ (Harness.state (Console.base c) = Some passed ->
               Harness.state (Console.base c') = Some passed)
           /\ (Harness.state (Console.base c) <> Some failed ->
               Harness.state (Console.base c') <> Some failed))
  /\ (forall (h : Harness.t) line,
         Harness.state h = Some passed ->
         Harness.state (Test.handle h line) = Some failed ->
         str_in Test.RUN_FAILED line = true
         \/ (str_in Test.RUN_PASSED line = true /\ Harness.fault h = true))
  /\ (forall (h : Harness.t) line,
         Harness.state h = Some failed ->
         Harness.state (Test.handle h line) = Some passed
         <-> str_in Test.RUN_PASSED line = true
             /\ str_in Test.RUN_FAILED line = false
             /\ Harness.fault h = false).
Proof.
  split; [|split; [|split]].
  - intros h lines. revert h.
    induction lines as [|l lines IH]; intros h Hh; [exact Hh|].
    rewrite Test_run_cons. apply IH. rewrite Test_handle_state.
    destruct (str_in Test.RUN_FAILED l), (str_in Test.RUN_PASSED l),
      (Harness.fault h); (exact Hh || discriminate).
  - intros c lines Hc. destruct (run_configured lines c Hc) as (c' & Hr & _).
    exists c'. split; [exact Hr|].
    destruct (run_state _ _ _ Hr) as [-> | ->];
      repeat split; (done || congruence).
  - intros h line Hp. rewrite Test_handle_state.
    destruct (str_in Test.RUN_FAILED line), (str_in Test.RUN_PASSED line),
      (Harness.fault h); intros H; auto; congruence.
  - intros h line Hf. rewrite Test_handle_state.
    destruct (str_in Test.RUN_FAILED line), (str_in Test.RUN_PASSED line),
      (Harness.fault h); rewrite ?Hf; split;
      (done || (intros (? & ? & ?); done)).
Qed.

(** C8: when the ignore_faults tag is present at configure time, the fault
    flag is false after every sequence of handled lines, in the structured
    matcher and in the console matcher, whatever fault markers the lines
    carry; and the verdict of the structured matcher, the only one that
    reads the flag, follows from the banners alone. *)
Theorem C8_ignore_faults (instance : Instance) :
  "ignore_faults" ∈ tags (test instance) ->
  (forall lines : list string,
      let h := Test.run (Test.configure Harness.init instance) lines in
      Harness.fault h = false
      /\ forall line,
           Harness.state (Test.handle h line)
           = if str_in Test.RUN_FAILED line then Some failed
             else if str_in Test.RUN_PASSED line then Some passed
                  else Harness.state h)
  /\ (forall c (lines : list string),
         Console.configure Console.init instance = Ok c ->
         exists c', Console.run c lines = Ok c'
           /\ Harness.fault (Console.base c') = false).
Proof.
  intros Htag.
  destruct (Harness_configure_run_state Harness.init instance)
    as (_ & _ & _ & Hf & _ & _ & _ & Hpol).
  rewrite bool_decide_true in Hpol by exact Htag. cbn in Hf.
  split.
  - intros lines h.
    assert (Hoff : Harness.fault h = false).
    { subst h. unfold Test.configure.
      generalize dependent (Harness.configure Harness.init instance).
      induction lines as [|l lines IH]; intros h0 Hf0 Hpol0; [exact Hf0|].
      rewrite Test_run_cons. apply IH.
      - by rewrite Test_handle_fault, Hf0, Hpol0.
      - by rewrite Test_handle_fail_on_fault. }
    split; [exact Hoff|].
    intros line. by rewrite Test_handle_state, Hoff.
  - intros c lines Hc.
    destruct (run_configured lines c (configure_configured _ _ _ Hc))
      as (c' & Hr & _).
    exists c'. split; [exact Hr|].
    apply configure_base in Hc. cbn in Hc.
    apply (run_fault_off _ _ _ Hr); by rewrite Hc.
Qed.

(** C7 (amended): configured in single-line mode with an empty pattern
    list, the console matcher raises an error; with a non-empty list it
    compiles the first pattern and no other, and succeeds with that
    compiled pattern when the compilation succeeds, while a first pattern
    that does not compile makes [configure] raise the compile error. *)
Theorem C7_one_line_configure (instance : Instance) (cfg : Config) :
  harness_config (test instance) = Some cfg ->
  cfg_type cfg = Some "one_line" ->
  (default [] (cfg_regex cfg) = [] ->
   Console.configure Console.init instance = Raise IndexError)
  /\ (forall (r : string) (rest : list string),
         default [] (cfg_regex cfg) = r :: rest ->
         (forall p, re_compile r = Ok p ->
            Console.configure Console.init instance
            = Ok {| Console.base := Harness.configure Harness.init instance;
                    Console.pattern := Some p;
                    Console.patterns := None |})
         /\ (forall e, re_compile r = Raise e ->
               Console.configure Console.init instance = Raise e)).
Proof.
  intros Hcfg Hty.
  destruct (Harness_configure_config Harness.init instance cfg Hcfg)
    as (Hty' & Hrs' & _); [rewrite Hty; eauto|].
  rewrite Hty in Hty'.
  unfold Console.configure, Console.type_is.
  change (Console.base (Console.set_base ?h _)) with h.
  cbn [Console.init Console.base].
  rewrite Hty', Hrs', bool_decide_true by done.
  split.
  - intros ->. reflexivity.
  - intros r rest ->. change (index (r :: rest) 0) with (Ok r).
    cbn [mbind result_bind].
    split; [intros p -> | intros e ->]; reflexivity.
Qed.

(** *** Runs in multi-line unordered mode *)

Lemma od_get_is_Some (k : string) (d : odict) :
  is_Some (od_get k d) <-> k ∈ d.*1.
Proof.
  rewrite <- not_eq_None_Some, od_get_None.
  destruct (decide (k ∈ d.*1)); tauto.
Qed.

Lemma keys_bound (d : odict) (regex : list string) :
  NoDup d.*1 -> d.*1 ⊆ regex ->
  length d <= length regex
  /\ (length d = length regex -> d.*1 ≡ₚ regex).
Proof.
  intros Hnd Hsub.
  pose proof (NoDup_submseteq _ _ Hnd Hsub) as Hms.
  pose proof (submseteq_length _ _ Hms) as Hlen.
  rewrite length_fmap in Hlen. split; [exact Hlen|].
  intros Heq. apply submseteq_length_Permutation; [exact Hms|].
  rewrite length_fmap. lia.
Qed.

Lemma handle_unordered c line ps c' :
  Harness.type (Console.base c) = Some "multi_line" ->
  Harness.ordered (Console.base c) = false ->
  Console.patterns c = Some ps ->
  Console.handle c line = Ok c' ->
  let regex := Harness.regex (Console.base c) in
  let m := Harness.matches (Console.base c) in
  let m' := Harness.matches (Console.base c') in
  (forall k v, od_get k m = Some v -> od_get k m' = Some v)
  /\ (forall k, od_get k m = None -> hit regex ps line 0 k ->
                od_get k m' = Some line)
  /\ (forall k, od_get k m = None -> ~ hit regex ps line 0 k ->
                od_get k m' = None)
  /\ (NoDup m.*1 -> NoDup m'.*1)
  /\ (m.*1 ⊆ regex -> m'.*1 ⊆ regex)
  /\ length m <= length m'
  /\ Harness.state (Console.base c')
     = (if length m' =? length regex then Some passed
        else Harness.state (Console.base c)).
Proof.
  intros Hty Hord Hps Hh regex m m'.
  pose proof Hh as Hh'. rewrite Console_handle_unfold in Hh'.
  apply bind_Ok in Hh' as (c1 & Hd & _).
  destruct (handle_after_dispatch _ _ _ Hd) as (c'' & Hh'' & Hst & _ & Hm).
  assert (c'' = c') as -> by congruence.
  destruct (dispatch_unordered _ _ _ _ Hty Hord Hps Hd) as (m1 & Hscan & Hm1 & Hst1).
  assert (m' = m1) as -> by (subst m'; congruence).
  destruct (scan_unordered_spec _ _ _ _ _ _ Hscan) as (H1 & H2 & H3).
  destruct (scan_unordered_keys _ _ _ _ _ _ Hscan) as (H4 & H5 & H6).
  rewrite Hst, Hst1. repeat split; assumption.
Qed.

Lemma run_unordered (lines : list string) ps :
  forall c c',
    Harness.type (Console.base c) = Some "multi_line" ->
    Harness.ordered (Console.base c) = false ->
    Console.patterns c = Some ps ->
    Console.run c lines = Ok c' ->
    let regex := Harness.regex (Console.base c) in
    let m := Harness.matches (Console.base c) in
    let m' := Harness.matches (Console.base c') in
    NoDup m.*1 -> m.*1 ⊆ regex ->
    NoDup m'.*1 /\ m'.*1 ⊆ regex /\ length m <= length m'
    /\ (forall k, k ∈ m'.*1 <->
                  k ∈ m.*1 \/ exists line, line ∈ lines /\ hit regex ps line 0 k)
    /\ (Harness.state (Console.base c') = Some passed <->
        Harness.state (Console.base c) = Some passed
        \/ (lines <> [] /\ length m' = length regex)).
Proof.
  induction lines as [|l lines IH]; intros c c' Hty Hord Hps Hr regex m m' Hnd Hsub.
  - injection Hr as <-. subst m'. repeat split; auto.
    + intros [?|(line & []%elem_of_nil & _)]. assumption.
    + intros [?|[Hne _]]; [assumption | by destruct Hne].
  - rewrite Console_run_cons in Hr. apply bind_Ok in Hr as (c1 & Hh & Hr).
    destruct (handle_frame _ _ _ Hh) as (_ & Hps1 & Hty1 & Hrx1 & Hord1 & _).
    destruct (handle_unordered _ _ _ _ Hty Hord Hps Hh)
      as (Hkeep & Hnew & Hnone & Hnd1 & Hsub1 & Hlen1 & Hst1).
    fold regex m in Hkeep, Hnew, Hnone, Hnd1, Hsub1, Hlen1, Hst1.
    rewrite Hty in Hty1. rewrite Hord in Hord1. rewrite Hps in Hps1.
    specialize (IH c1 c' Hty1 Hord1 Hps1 Hr). cbn zeta in IH.
    rewrite Hrx1 in IH. fold regex m' in IH.
    set (m1 := Harness.matches (Console.base c1)) in *.
    specialize (Hnd1 Hnd). specialize (Hsub1 Hsub).
    destruct (IH Hnd1 Hsub1) as (Hnd' & Hsub' & Hlen' & Hkeys & Hst').
    split; [exact Hnd'|]. split; [exact Hsub'|]. split; [lia|]. split.
    + intros k. rewrite Hkeys. clear Hkeys Hst'.
      rewrite <- !od_get_is_Some.
      destruct (od_get k m) as [v|] eqn:Hk.
      * rewrite (Hkeep k v Hk). split; intros _; left; eauto.
      * destruct (classic_hit regex ps l k 0) as [Hhit|Hhit].
        -- rewrite (Hnew k Hk Hhit). split; intros _.
           ++ right. exists l. split; [apply elem_of_cons; auto | exact Hhit].
           ++ left. eauto.
        -- rewrite (Hnone k Hk Hhit). split.
           ++ intros [[? [=]]|(line & Hin & Hh')].
              right. exists line. split; [apply elem_of_cons; auto | exact Hh'].
           ++ intros [[? [=]]|(line & Hin & Hh')]. right.
              apply elem_of_cons in Hin as [->|Hin]; [contradiction|eauto].
    + rewrite Hst', Hst1. clear Hkeys Hst'.
      destruct (keys_bound _ _ Hnd' Hsub') as [Hb' _].
      destruct (Nat.eqb_spec (length m1) (length regex)) as [Heq|Hne].
      * split; [intros _|auto]. right. split; [discriminate|lia].
      * split.
        -- intros [?|[Hl ?]]; [auto|]. right. split; [discriminate|assumption].
        -- intros [?|[_ Heq]]; [auto|]. right. split; [|exact Heq].
           intros ->. injection Hr as <-. contradiction.
Qed.

(** A console harness fresh from [configure] has matched nothing yet. *)
Lemma configure_fresh (instance : Instance) c :
  Console.configure Console.init instance = Ok c ->
  configured c
  /\ Harness.state (Console.base c) = None
  /\ Harness.matches (Console.base c) = []
  /\ Harness.next_pattern (Console.base c) = 0.
Proof.
  intros Hc. split; [by eapply configure_configured|].
  apply configure_base in Hc. rewrite Hc.
  destruct (Harness_configure_run_state Harness.init instance)
    as (Hst & Hm & _ & _ & _ & Hnp & _).
  auto.
Qed.

(** C9: in multi-line unordered mode, when the configured pattern list
    holds the same source string at two positions, no sequence of lines
    makes the verdict passed: the matches are keyed by source string, so
    their number stays below the length of the list. *)
Theorem C9_duplicate_source_never_passes (instance : Instance) c
    (i j : nat) (r : string) :
  Console.configure Console.init instance = Ok c ->
  Harness.type (Console.base c) = Some "multi_line" ->
  Harness.ordered (Console.base c) = false ->
  i <> j ->
  Harness.regex (Console.base c) !! i = Some r ->
  Harness.regex (Console.base c) !! j = Some r ->
  forall lines : list string,
    exists c', Console.run c lines = Ok c'
      /\ Harness.state (Console.base c') = None
      /\ length (Harness.matches (Console.base c'))
         < length (Harness.regex (Console.base c)).
Proof.
  intros Hc Hty Hord Hij Hi Hj lines.
  destruct (configure_fresh _ _ Hc) as ((_ & Hmulti) & Hst & Hm & _).
  destruct (Hmulti Hty) as (ps & Hps & _).
  destruct (run_configured lines c (configure_configured _ _ _ Hc))
    as (c' & Hr & _).
  exists c'. split; [exact Hr|].
  destruct (run_unordered lines ps c c' Hty Hord Hps Hr)
    as (Hnd & Hsub & _ & _ & Hpass).
  { rewrite Hm. apply NoDup_nil_2. }
  { rewrite Hm. intros x []%elem_of_nil. }
  destruct (keys_bound _ _ Hnd Hsub) as [Hle Hperm].
  assert (Hlt : length (Harness.matches (Console.base c'))
                < length (Harness.regex (Console.base c))).
  { destruct (decide (length (Harness.matches (Console.base c'))
                      = length (Harness.regex (Console.base c))))
      as [Heq|Hne]; [|lia].
    exfalso. apply Hij.
    rewrite (Hperm Heq) in Hnd.
    eapply NoDup_alt; eassumption. }
  split; [|exact Hlt].
  destruct (run_state _ _ _ Hr) as [H|H]; [congruence|].
  apply Hpass in H as [H|[_ H]]; [congruence | lia].
Qed.

(** C4 (amended): in multi-line unordered mode with pairwise distinct
    pattern source strings, each pattern not matched so far that matches
    the handled line is recorded with that line as evidence, a pattern
    already matched keeps its first evidence, and after one or more lines
    the verdict is passed exactly when every configured pattern has been
    matched by one of the lines handled, in whatever order they came. *)
Theorem C4_unordered_mode (instance : Instance) c ps :
  Console.configure Console.init instance = Ok c ->
  Harness.type (Console.base c) = Some "multi_line" ->
  Harness.ordered (Console.base c) = false ->
  Console.patterns c = Some ps ->
  NoDup (Harness.regex (Console.base c)) ->
  forall lines : list string,
    exists c1, Console.run c lines = Ok c1
      /\ (Harness.state (Console.base c1) = Some passed <->
          lines <> []
          /\ forall i p, ps !! i = Some p ->
                exists l, l ∈ lines /\ re_search p l = true)
      /\ (forall lines', lines ≡ₚ lines' ->
            exists c1', Console.run c lines' = Ok c1'
              /\ Harness.state (Console.base c1')
                 = Harness.state (Console.base c1))
      /\ (forall line,
            exists c2, Console.handle c1 line = Ok c2
              /\ forall i r p,
                   Harness.regex (Console.base c) !! i = Some r ->
                   ps !! i = Some p ->
                   match od_get r (Harness.matches (Console.base c1)) with
                   | Some evidence =>
                       od_get r (Harness.matches (Console.base c2))
                       = Some evidence
                   | None =>
                       od_get r (Harness.matches (Console.base c2))
                       = if re_search p line then Some line else None
                   end).
Proof.
  intros Hc Hty Hord Hps Hnd0.
  destruct (configure_fresh _ _ Hc) as (Hcfg & Hst & Hm & _).
  destruct Hcfg as (Hone & Hmulti).
  destruct (Hmulti Hty) as (ps' & Hps' & Hlen).
  assert (ps' = ps) as -> by congruence. clear Hps'.
  set (regex := Harness.regex (Console.base c)) in *.
  (* a hit on a key is a match of the pattern at the key's position *)
  assert (Hhit : forall line i r p,
             regex !! i = Some r -> ps !! i = Some p ->
             hit regex ps line 0 r <-> re_search p line = true).
  { intros line i r p Hr Hp. split.
    - intros (j & q & Hq & Hj & Hs). cbn in Hj.
      assert (j = i) as -> by (eapply NoDup_alt; eassumption).
      congruence.
    - intros Hs. exists i, p. auto. }
  (* the verdict of a run, whatever the order of its lines *)
  assert (Hrun : forall lines : list string,
             exists c1, Console.run c lines = Ok c1
               /\ (Harness.state (Console.base c1) = Some passed <->
                   lines <> []
                   /\ forall i p, ps !! i = Some p ->
                         exists l, l ∈ lines /\ re_search p l = true)).
  { intros lines.
    destruct (run_configured lines c (conj Hone Hmulti)) as (c1 & Hr & _).
    exists c1. split; [exact Hr|].
    destruct (run_unordered lines ps c c1 Hty Hord Hps Hr)
      as (Hnd & Hsub & _ & Hkeys & Hpass).
    { rewrite Hm. apply NoDup_nil_2. }
    { rewrite Hm. intros x []%elem_of_nil. }
    fold regex in Hsub, Hkeys, Hpass.
    rewrite Hm in Hkeys. rewrite Hpass, Hst. clear Hpass.
    destruct (keys_bound _ _ Hnd Hsub) as [Hle Hperm].
    split.
    - intros [[=]|[Hne Heq]]. split; [exact Hne|].
      intros i p Hp.
      destruct (lookup_lt_is_Some_2 regex i) as [r Hr'].
      { rewrite <- Hlen. by eapply lookup_lt_Some. }
      assert (Hin : r ∈ (Harness.matches (Console.base c1)).*1).
      { rewrite (Hperm Heq). apply list_elem_of_lookup. eauto. }
      apply Hkeys in Hin as [[]%elem_of_nil|(l & Hl & Hh)].
      exists l. split; [exact Hl|]. by eapply Hhit.
    - intros [Hne Hall]. right. split; [exact Hne|].
      apply Nat.le_antisymm; [exact Hle|].
      rewrite <- (length_fmap fst (Harness.matches (Console.base c1))).
      apply submseteq_length, NoDup_submseteq; [exact Hnd0|].
      intros r (i & Hr')%list_elem_of_lookup.
      destruct (lookup_lt_is_Some_2 ps i) as [p Hp].
      { rewrite Hlen. by eapply lookup_lt_Some. }
      destruct (Hall i p Hp) as (l & Hl & Hs).
      apply Hkeys. right. exists l. split; [exact Hl|]. by eapply Hhit. }
  intros lines. destruct (Hrun lines) as (c1 & Hr & Hpass).
  exists c1. split; [exact Hr|]. split; [exact Hpass|]. split.
  - intros lines' Hperm. destruct (Hrun lines') as (c1' & Hr' & Hpass').
    exists c1'. split; [exact Hr'|].
    assert (Hsame : Harness.state (Console.base c1') = Some passed
                    <-> Harness.state (Console.base c1) = Some passed).
    { rewrite Hpass, Hpass'. split; intros [Hne Hall]; split.
      - intros ->. apply Permutation_nil in Hperm. congruence.
      - intros i p Hp. destruct (Hall i p Hp) as (l & Hl & Hs).
        exists l. by rewrite Hperm.
      - intros ->. symmetry in Hperm. apply Permutation_nil in Hperm.
        congruence.
      - intros i p Hp. destruct (Hall i p Hp) as (l & Hl & Hs).
        exists l. by rewrite <- Hperm. }
    destruct (run_state _ _ _ Hr) as [H1|H1], (run_state _ _ _ Hr') as [H2|H2];
      rewrite ?Hst in *; try congruence.
    + rewrite H1. apply Hsame in H2. congruence.
    + rewrite H2. apply Hsame in H1. congruence.
  - intros line.
    destruct (run_frame _ _ _ Hr) as (_ & Hps1 & Hty1 & Hrx1 & Hord1 & _).
    rewrite Hps in Hps1. rewrite Hty in Hty1. rewrite Hord in Hord1.
    destruct (run_configured lines c (conj Hone Hmulti)) as (c1' & Hr1 & Hc1).
    assert (c1' = c1) as -> by congruence.
    destruct (handle_configured c1 line Hc1) as (c2 & Hh & _).
    exists c2. split; [exact Hh|].
    destruct (handle_unordered _ _ _ _ Hty1 Hord1 Hps1 Hh)
      as (Hkeep & Hnew & Hnone & _).
    rewrite Hrx1 in Hnew, Hnone. fold regex in Hnew, Hnone.
    intros i r p Hr' Hp.
    destruct (od_get r (Harness.matches (Console.base c1))) as [ev|] eqn:Hget.
    + by apply Hkeep.
    + destruct (re_search p line) eqn:Hs.
      * apply Hnew; [exact Hget|]. by apply (Hhit line i r p).
      * apply Hnone; [exact Hget|]. rewrite (Hhit line i r p) by assumption.
        congruence.
Qed.

End ConsoleClaims.

(** ** The claims on concrete runs *)

(** C1, at inputs where the statement fails: in the structured matcher
    the run-failed banner turns passed into failed with no run-succeeded
    banner on the line, hence without the veto, and the run-succeeded banner
    turns failed into passed. *)
Lemma C1_verdict_monotonic_counterexample :
  (Harness.state (Test.run suite1 ["PROJECT EXECUTION SUCCESSFUL"])
   = Some passed
   /\ str_in Test.RUN_PASSED "PROJECT EXECUTION FAILED" = false
   /\ Harness.state
        (Test.run suite1
           ["PROJECT EXECUTION SUCCESSFUL"; "PROJECT EXECUTION FAILED"])
      = Some failed)
  /\ (Harness.state (Test.run suite1 ["PROJECT EXECUTION FAILED"])
      = Some failed
      /\ Harness.state
           (Test.run suite1
              ["PROJECT EXECUTION FAILED"; "PROJECT EXECUTION SUCCESSFUL"])
         = Some passed).
Proof. vm_compute. repeat split. Qed.

(** C1 (amended) on a structured run that has already failed. *)
Lemma C1_verdict_transitions_witness :
  Harness.state (Test.run suite1 ["PROJECT EXECUTION FAILED"]) <> None
  /\ Harness.state
       (Test.run (Test.run suite1 ["PROJECT EXECUTION FAILED"])
          ["PASS - test_foo"; "PROJECT EXECUTION SUCCESSFUL"]) <> None.
Proof.
  assert (H : Harness.state (Test.run suite1 ["PROJECT EXECUTION FAILED"])
              <> None) by (vm_compute; discriminate).
  split; [exact H|].
  apply (proj1 (C1_verdict_transitions (E := MiniRe.engine))). exact H.
Defined.

(** C3 on the patterns 'Hello' and 'World.*done'. *)
Lemma C3_ordered_mode_witness :
  exists c c',
    Console.configure (E := MiniRe.engine) Console.init hello_world_ordered
    = Ok c
    /\ Console.run c ["*** Hello ***"; "World is done"] = Ok c'
    /\ Harness.state (Console.base c') = Some passed.
Proof.
  destruct (proj2 (C3_ordered_mode (E := MiniRe.engine)) hello_world_ordered
              (console_config "multi_line" ["Hello"; "World.*done"] true)
              "Hello" "World.*done" (compiled "Hello") (compiled "World.*done"))
    as (c & Hc & Hrun & _); try reflexivity.
  destruct (Hrun "*** Hello ***" "World is done") as (c' & Hr & Hst);
    try reflexivity.
  exists c, c'. auto.
Defined.

(** C4, at an input where the statement fails: with the source string
    'ready' configured twice, the line 'ready' matches every configured
    pattern and the verdict is still running. *)
Lemma C4_unordered_mode_counterexample :
  let c := configured_console twice_ready_unordered in
  Console.configure Console.init twice_ready_unordered = Ok c
  /\ Harness.type (Console.base c) = Some "multi_line"
  /\ Harness.ordered (Console.base c) = false
  /\ Console.patterns c = Some [compiled "ready"; compiled "ready"]
  /\ re_search (RegexEngine := MiniRe.engine) (compiled "ready") "ready" = true
  /\ Harness.state ∘ Console.base <$> Console.run c ["ready"] = Ok None.
Proof. vm_compute. repeat split. Qed.

(** C4 (amended) on two distinct patterns, matched in reverse order. *)
Lemma C4_unordered_mode_witness :
  let c := configured_console hello_world_unordered in
  NoDup (Harness.regex (Console.base c))
  /\ exists c1,
       Console.run c ["World is done"; "Hello"] = Ok c1
       /\ (Harness.state (Console.base c1) = Some passed <->
           ["World is done"; "Hello"] <> []
           /\ forall i p,
                 [compiled "Hello"; compiled "World.*done"] !! i = Some p ->
                 exists l, l ∈ ["World is done"; "Hello"]
                           /\ re_search (RegexEngine := MiniRe.engine) p l
                              = true).
Proof.
  intros c.
  assert (Hnd : NoDup (Harness.regex (Console.base c))).
  { change (NoDup ["Hello"; "World.*done"]).
    apply NoDup_cons_2; [|apply NoDup_singleton].
    intros H%list_elem_of_singleton. discriminate H. }
  split; [exact Hnd|].
  destruct (C4_unordered_mode (E := MiniRe.engine) hello_world_unordered c
              [compiled "Hello"; compiled "World.*done"])
    with (lines := ["World is done"; "Hello"]) as (c1 & Hr & Hpass & _);
    try reflexivity; [exact Hnd|].
  exists c1. split; [exact Hr | exact Hpass].
Defined.

(** C6 on a single-line harness and a line that does not match. *)
Lemma C6_console_table_entry_witness :
  let c := configured_console hello_one_line in
  configured c
  /\ exists c',
       Console.handle c "booting" = Ok c'
       /\ Harness.tests (Console.base c') !! Harness.id (Console.base c)
          = Some "FAIL".
Proof.
  intros c.
  assert (Hc : configured c).
  { apply (configure_configured Console.init hello_one_line). reflexivity. }
  split; [exact Hc|].
  destruct (C6_console_table_entry (E := MiniRe.engine) c "booting" Hc)
    as (c' & Hh & Hid & _ & _ & Hfail).
  exists c'. split; [exact Hh|]. rewrite <- Hid. apply Hfail.
  left. vm_compute in Hh. injection Hh as <-. reflexivity.
Defined.

(** C7, at an input where the statement fails: the pattern list is not
    empty, its first pattern has an unterminated group, and [configure]
    raises. *)
Lemma C7_one_line_configure_counterexample :
  cfg_regex (console_config "one_line" ["Booting (.*"] true)
  = Some ["Booting (.*"]
  /\ Console.configure (E := MiniRe.engine) Console.init unterminated_one_line
     = Raise ReError.
Proof. vm_compute. split; reflexivity. Qed.

(** C7 (amended) on a pattern that compiles. *)
Lemma C7_one_line_configure_witness :
  re_compile (RegexEngine := MiniRe.engine) "Hello (W|w)orld"
  = Ok (compiled "Hello (W|w)orld")
  /\ Console.configure (E := MiniRe.engine) Console.init hello_one_line
     = Ok (@Console.Build_t MiniRe.engine
             (Harness.configure Harness.init hello_one_line)
             (Some (compiled "Hello (W|w)orld")) None).
Proof.
  split; [reflexivity|].
  apply (proj2 (C7_one_line_configure (E := MiniRe.engine) hello_one_line
                  (console_config "one_line" ["Hello (W|w)orld"] true)
                  eq_refl eq_refl)
           "Hello (W|w)orld" []); reflexivity.
Defined.

(** C8 on a structured run that sees the fault marker. *)
Lemma C8_ignore_faults_witness :
  "ignore_faults" ∈ ["slow"; "ignore_faults"]
  /\ Harness.fault
       (Test.run
          (Test.configure Harness.init
             (descriptor None "suite1" ["slow"; "ignore_faults"]))
          ["***** ZEPHYR FATAL ERROR *****"; "PROJECT EXECUTION SUCCESSFUL"])
     = false.
Proof.
  assert (H : "ignore_faults" ∈ ["slow"; "ignore_faults"]).
  { apply elem_of_cons. right. apply elem_of_cons. left. reflexivity. }
  split; [exact H|].
  apply (proj1 (C8_ignore_faults (E := MiniRe.engine)
                  (descriptor None "suite1" ["slow"; "ignore_faults"]) H)
           ["***** ZEPHYR FATAL ERROR *****"; "PROJECT EXECUTION SUCCESSFUL"]).
Defined.

(** C9 on the source string 'ready' configured twice. *)
Lemma C9_duplicate_source_never_passes_witness :
  let c := configured_console twice_ready_unordered in
  Harness.regex (Console.base c) !! 0 = Some "ready"
  /\ Harness.regex (Console.base c) !! 1 = Some "ready"
  /\ exists c',
       Console.run c ["ready"; "ready"; "steady"] = Ok c'
       /\ Harness.state (Console.base c') = None.
Proof.
  intros c. split; [reflexivity|split; [reflexivity|]].
  destruct (C9_duplicate_source_never_passes (E := MiniRe.engine)
              twice_ready_unordered c 0 1 "ready")
    with (lines := ["ready"; "ready"; "steady"]) as (c' & Hr & Hst & _);
    try reflexivity; [lia|].
  exists c'. auto.
Defined.

(** * Further properties of the harness classes *)

(** ** [Harness.configure], called again *)

(** Configuring twice: the identifier is that of the second descriptor, a
    second configuration dictionary that is not empty decides type, regex,
    repeat and ordered alone (a key it omits falls back to its default, not
    to the value of the first descriptor), an absent or empty one keeps the
    first configuration, and the fault policy, once switched off by the
    ignore_faults tag, is not switched on again. *)
Theorem Harness_configure_twice (h : Harness.t) (i1 i2 : Instance) :
  let h1 := Harness.configure h i1 in
  let h2 := Harness.configure h1 i2 in
  Harness.id h2 = Some (test_id (test i2))
  /\ Harness.fail_on_fault h2
     = Harness.fail_on_fault h
       && negb (bool_decide ("ignore_faults" ∈ tags (test i1)))
       && negb (bool_decide ("ignore_faults" ∈ tags (test i2)))
  /\ (forall cfg,
         harness_config (test i2) = Some cfg ->
         truthy (Some cfg) = true ->
         Harness.type h2 = cfg_type cfg
         /\ Harness.regex h2 = default [] (cfg_regex cfg)
         /\ Harness.repeat h2 = default 1%Z (cfg_repeat cfg)
         /\ Harness.ordered h2 = default true (cfg_ordered cfg))
  /\ (truthy (harness_config (test i2)) = false ->
      Harness.type h2 = Harness.type h1
      /\ Harness.regex h2 = Harness.regex h1
      /\ Harness.repeat h2 = Harness.repeat h1
      /\ Harness.ordered h2 = Harness.ordered h1).
Proof.
  intros h1 h2.
  assert (Hfof : forall g i,
             Harness.fail_on_fault (Harness.configure g i)
             = Harness.fail_on_fault g
               && negb (bool_decide ("ignore_faults" ∈ tags (test i)))).
  { intros g i. unfold Harness.configure.
    destruct (harness_config (test i)) as [cfg|];
      [destruct (truthy (Some cfg))|];
      destruct (bool_decide ("ignore_faults" ∈ tags (test i)));
      cbn; by rewrite ?andb_true_r, ?andb_false_r. }
  assert (Hkeep : forall g i,
             truthy (harness_config (test i)) = false ->
             Harness.type (Harness.configure g i) = Harness.type g
             /\ Harness.regex (Harness.configure g i) = Harness.regex g
             /\ Harness.repeat (Harness.configure g i) = Harness.repeat g
             /\ Harness.ordered (Harness.configure g i) = Harness.ordered g).
  { intros g i Hf. unfold Harness.configure.
    destruct (harness_config (test i)) as [cfg|]; [rewrite Hf|];
      destruct (bool_decide ("ignore_faults" ∈ tags (test i)));
      repeat split. }
  assert (Hset : forall g i cfg,
             harness_config (test i) = Some cfg ->
             truthy (Some cfg) = true ->
             Harness.type (Harness.configure g i) = cfg_type cfg
             /\ Harness.regex (Harness.configure g i)
                = default [] (cfg_regex cfg)
             /\ Harness.repeat (Harness.configure g i)
                = default 1%Z (cfg_repeat cfg)
             /\ Harness.ordered (Harness.configure g i)
                = default true (cfg_ordered cfg)).
  { intros g i cfg Hcfg Ht. unfold Harness.configure. rewrite Hcfg, Ht.
    repeat split. }
  subst h2. split; [|split; [|split]].
  - apply (Harness_configure_run_state h1 i2).
  - subst h1. by rewrite !Hfof.
  - apply Hset.
  - apply Hkeep.
Qed.

(** A second descriptor that only names the type: the two patterns of the
    first one are gone. *)
Lemma Harness_configure_twice_witness :
  truthy (Some {| cfg_type := Some "one_line"; cfg_regex := None;
                  cfg_repeat := None; cfg_ordered := None;
                  cfg_others := false |}) = true
  /\ Harness.regex (Harness.configure Harness.init hello_world_unordered)
     = ["Hello"; "World.*done"]
  /\ Harness.regex
       (Harness.configure
          (Harness.configure Harness.init hello_world_unordered)
          (descriptor
             (Some {| cfg_type := Some "one_line"; cfg_regex := None;
                      cfg_repeat := None; cfg_ordered := None;
                      cfg_others := false |}) "console2" []))
     = [].
Proof.
  split; [reflexivity|split; [reflexivity|]].
  apply (proj1 (proj2 (proj2 (Harness_configure_twice Harness.init
                                hello_world_unordered
                                (descriptor
                                   (Some {| cfg_type := Some "one_line";
                                            cfg_regex := None;
                                            cfg_repeat := None;
                                            cfg_ordered := None;
                                            cfg_others := false |})
                                   "console2" []))))
           {| cfg_type := Some "one_line"; cfg_regex := None;
              cfg_repeat := None; cfg_ordered := None;
              cfg_others := false |});
    reflexivity.
Defined.

(** ** The result-line pattern, read backwards *)

Lemma append_assoc (a b c : string) : (a +:+ b) +:+ c = a +:+ b +:+ c.
Proof.
  induction a as [|x a IH]; [reflexivity|].
  change (String x ((a +:+ b) +:+ c) = String x (a +:+ b +:+ c)).
  by rewrite IH.
Qed.

Lemma append_inj (p a b : string) : p +:+ a = p +:+ b -> a = b.
Proof.
  induction p as [|x p IH]; [trivial|].
  change (String x p +:+ ?s) with (String x (p +:+ s)).
  intros [= H]. auto.
Qed.

Lemma strip_prefix_Some (p s rest : string) :
  strip_prefix p s = Some rest -> s = p +:+ rest.
Proof.
  revert s. induction p as [|c p IH]; intros s; cbn.
  - by intros [= ->].
  - destruct s as [|d s]; [discriminate|].
    destruct (Ascii.eqb_spec c d) as [->|]; [|discriminate].
    intros H. change (String d p +:+ rest) with (String d (p +:+ rest)).
    f_equal. auto.
Qed.

Lemma dot_star_idem (s : string) : dot_star (dot_star s) = dot_star s.
Proof.
  induction s as [|c s IH]; [reflexivity|]. cbn.
  destruct (Ascii.eqb c newline) eqn:Hc; [reflexivity|].
  cbn. by rewrite Hc, IH.
Qed.

Lemma dot_star_split (s : string) :
  exists tail, s = dot_star s +:+ tail
               /\ (tail = "" \/ exists t, tail = String newline t).
Proof.
  induction s as [|c s (tail & Hs & Htail)].
  - exists "". auto.
  - cbn. destruct (Ascii.eqb_spec c newline) as [->|Hc].
    + exists (String newline s). eauto.
    + exists tail. split; [|exact Htail].
      change (String c (dot_star s) +:+ tail)
        with (String c (dot_star s +:+ tail)).
      by rewrite <- Hs.
Qed.

(** Whenever [result_re] matches a line, the first group is one of the
    three keywords, the last group holds no line feed, and the line is the
    keyword, ' - ', possibly 'test_', the last group and then nothing or a
    rest that starts with a line feed. *)
Theorem result_re_match_sound (line kw name : string) :
  result_re_match line = Some (kw, name) ->
  (kw = "PASS" \/ kw = "FAIL" \/ kw = "SKIP")
  /\ dot_star name = name
  /\ exists pre tail,
       (pre = "" \/ pre = "test_")
       /\ (tail = "" \/ exists t, tail = String newline t)
       /\ line = kw +:+ " - " +:+ pre +:+ name +:+ tail.
Proof.
  unfold result_re_match, result_re_keyword. intros H.
  assert (Hkw : exists rest,
             (kw = "PASS" \/ kw = "FAIL" \/ kw = "SKIP")
             /\ line = kw +:+ rest
             /\ match strip_prefix " - " rest with
                | Some rest =>
                    Some (kw, dot_star match strip_prefix "test_" rest with
                                       | Some rest' => rest'
                                       | None => rest
                                       end)
                | None => None
                end = Some (kw, name)).
  { destruct (strip_prefix "PASS" line) as [r|] eqn:HP;
      [|destruct (strip_prefix "FAIL" line) as [r|] eqn:HF;
        [|destruct (strip_prefix "SKIP" line) as [r|] eqn:HS;
          [|discriminate]]];
      exists r;
      (assert (Hk : kw = "PASS" \/ kw = "FAIL" \/ kw = "SKIP");
       [ destruct (strip_prefix " - " r); [|discriminate];
         injection H as <- _; auto
       | split; [exact Hk|] ]);
      (destruct (strip_prefix " - " r) eqn:Hd; [|discriminate]);
      injection H as <- <-;
      (split; [by apply strip_prefix_Some | reflexivity]). }
  clear H. destruct Hkw as (rest & Hk & -> & H).
  split; [exact Hk|].
  destruct (strip_prefix " - " rest) as [rest1|] eqn:Hd; [|discriminate].
  apply strip_prefix_Some in Hd as ->.
  destruct (strip_prefix "test_" rest1) as [rest2|] eqn:Ht;
    injection H as <-; (split; [apply dot_star_idem|]).
  - apply strip_prefix_Some in Ht as ->.
    destruct (dot_star_split rest2) as (tail & Hs & Htail).
    exists "test_", tail. split; [auto|]. split; [exact Htail|].
    by rewrite <- Hs.
  - destruct (dot_star_split rest1) as (tail & Hs & Htail).
    exists "", tail. split; [auto|]. split; [exact Htail|].
    change ("" +:+ ?s) with s. by rewrite <- Hs.
Qed.

(** The pattern on a skipped subtest. *)
Lemma result_re_match_sound_witness :
  result_re_match "SKIP - test_uart_basic" = Some ("SKIP", "uart_basic")
  /\ dot_star "uart_basic" = "uart_basic".
Proof.
  split; [reflexivity|].
  apply (result_re_match_sound "SKIP - test_uart_basic" "SKIP" "uart_basic").
  reflexivity.
Defined.

(** ** The structured-result matcher over a whole run *)

Lemma Test_run_id (ls : list string) (h : Harness.t) :
  Harness.id (Test.run h ls) = Harness.id h.
Proof.
  revert h. induction ls as [|l ls IH]; intros h; [reflexivity|].
  rewrite Test_run_cons, IH. apply Test_handle_id.
Qed.

Lemma Test_run_fault (ls : list string) (h : Harness.t) :
  Harness.fault (Test.run h ls)
  = Harness.fault h
    || (Harness.fail_on_fault h && existsb (str_in Harness.FAULT) ls).
Proof.
  revert h. induction ls as [|l ls IH]; intros h.
  - cbn. by rewrite andb_false_r, orb_false_r.
  - rewrite Test_run_cons, IH, Test_handle_fault, Test_handle_fail_on_fault.
    cbn [existsb].
    destruct (Harness.fault h), (Harness.fail_on_fault h),
      (str_in Harness.FAULT l); reflexivity.
Qed.

Lemma Test_run_tests_other (ls : list string) (h : Harness.t)
    (k : option string) :
  (forall l g1 g3, l ∈ ls -> result_re_match l = Some (g1, g3) ->
                   k <> Some (format (Harness.id h) +:+ "." +:+ g3)) ->
  Harness.tests (Test.run h ls) !! k = Harness.tests h !! k.
Proof.
  revert h. induction ls as [|l ls IH]; intros h Hk; [reflexivity|].
  rewrite Test_run_cons, IH.
  - rewrite Test_handle_tests.
    destruct (result_re_match l) as [[g1 g3]|] eqn:Hl; [|reflexivity].
    apply lookup_insert_ne. apply not_eq_sym, (Hk l g1 g3); [|exact Hl].
    apply elem_of_cons. auto.
  - intros l' g1 g3 Hin. rewrite Test_handle_id. apply Hk.
    apply elem_of_cons. auto.
Qed.

(** The results table after a run: a key that no result line of the run
    names keeps its entry, and a subtest name holds the keyword of the last
    result line that names it. *)
Theorem Test_table_last_write (h : Harness.t) :
  (forall (lines : list string) (k : option string),
      (forall l g1 g3, l ∈ lines -> result_re_match l = Some (g1, g3) ->
                       k <> Some (format (Harness.id h) +:+ "." +:+ g3)) ->
      Harness.tests (Test.run h lines) !! k = Harness.tests h !! k)
  /\ (forall (before after : list string) (line kw name : string),
         result_re_match line = Some (kw, name) ->
         (forall l g1 g3, l ∈ after -> result_re_match l = Some (g1, g3) ->
                          g3 <> name) ->
         Harness.tests (Test.run h (before ++ line :: after))
           !! Some (format (Harness.id h) +:+ "." +:+ name)
         = Some kw).
Proof.
  split; [intros lines k; apply Test_run_tests_other|].
  intros before after line kw name Hline Hafter.
  rewrite Test_run_app, Test_run_cons, Test_run_tests_other.
  - by rewrite Test_handle_tests, Hline, Test_run_id, lookup_insert_eq.
  - intros l g1 g3 Hin Hl. rewrite Test_handle_id, Test_run_id.
    intros [= Heq]. apply append_inj, append_inj in Heq.
    by apply (Hafter l g1 g3).
Qed.

(** A subtest reported twice: the later keyword stays. *)
Lemma Test_table_last_write_witness :
  result_re_match "FAIL - test_foo" = Some ("FAIL", "foo")
  /\ Harness.tests
       (Test.run suite1
          (["PASS - test_foo"; "booting"]
             ++ "FAIL - test_foo" :: ["PASS - test_bar"]))
       !! Some (format (Harness.id suite1) +:+ "." +:+ "foo")
     = Some "FAIL".
Proof.
  split; [reflexivity|].
  apply (proj2 (Test_table_last_write suite1)
           ["PASS - test_foo"; "booting"] ["PASS - test_bar"]
           "FAIL - test_foo" "FAIL" "foo"); [reflexivity|].
  intros l g1 g3 ->%list_elem_of_singleton [= _ <-]. discriminate.
Defined.

(** The verdict after a run: lines without a banner leave it alone, and the
    last line with a banner decides it, whatever banners came earlier:
    failed if that line has the run-failed banner or a fault was detected
    before it, passed otherwise. *)
Theorem Test_verdict_last_banner (h : Harness.t) :
  (forall lines : list string,
      (forall l, l ∈ lines -> str_in Test.RUN_PASSED l = false
                              /\ str_in Test.RUN_FAILED l = false) ->
      Harness.state (Test.run h lines) = Harness.state h)
  /\ (forall (before after : list string) (line : string),
         str_in Test.RUN_PASSED line = true
         \/ str_in Test.RUN_FAILED line = true ->
         (forall l, l ∈ after -> str_in Test.RUN_PASSED l = false
                                 /\ str_in Test.RUN_FAILED l = false) ->
         Harness.state (Test.run h (before ++ line :: after))
         = if str_in Test.RUN_FAILED line
              || Harness.fault h
              || (Harness.fail_on_fault h
                  && existsb (str_in Harness.FAULT) before)
           then Some failed else Some passed).
Proof.
  assert (Hquiet : forall (lines : list string) (g : Harness.t),
             (forall l, l ∈ lines -> str_in Test.RUN_PASSED l = false
                                     /\ str_in Test.RUN_FAILED l = false) ->
             Harness.state (Test.run g lines) = Harness.state g).
  { induction lines as [|l lines IH]; intros g Hq; [reflexivity|].
    rewrite Test_run_cons, IH.
    - destruct (Hq l) as [Hp Hf]; [apply elem_of_cons; auto|].
      by rewrite Test_handle_state, Hp, Hf.
    - intros l' Hin. apply Hq, elem_of_cons. auto. }
  split; [intros lines; apply Hquiet|].
  intros before after line Hbanner Hafter.
  rewrite Test_run_app, Test_run_cons, (Hquiet after _ Hafter).
  rewrite Test_handle_state, Test_run_fault.
  destruct (str_in Test.RUN_FAILED line); [reflexivity|].
  destruct Hbanner as [-> | [=]]. cbn [orb].
  by destruct (Harness.fault h
               || Harness.fail_on_fault h
                  && existsb (str_in Harness.FAULT) before).
Qed.

(** A failed banner, then a passed one, then quiet lines: passed. *)
Lemma Test_verdict_last_banner_witness :
  str_in Test.RUN_PASSED "PROJECT EXECUTION SUCCESSFUL" = true
  /\ Harness.state
       (Test.run suite1
          (["PROJECT EXECUTION FAILED"]
             ++ "PROJECT EXECUTION SUCCESSFUL" :: ["PASS - test_foo"]))
     = Some passed.
Proof.
  split; [reflexivity|].
  apply (proj2 (Test_verdict_last_banner suite1)
           ["PROJECT EXECUTION FAILED"] ["PASS - test_foo"]
           "PROJECT EXECUTION SUCCESSFUL"); [left; reflexivity|].
  intros l ->%list_elem_of_singleton. split; reflexivity.
Defined.

(** Handling the same line a second time changes nothing, with one
    exception: a line that carries the fault marker and the run-succeeded
    banner (and not the run-failed one), first handled with the fault
    policy active and no fault detected, gives passed the first time and
    failed the second, vetoed by its own marker. *)
Theorem Test_handle_replay (h : Harness.t) (line : string) :
  let self_veto :=
    Harness.fail_on_fault h && negb (Harness.fault h)
    && str_in Harness.FAULT line && str_in Test.RUN_PASSED line
    && negb (str_in Test.RUN_FAILED line) in
  (self_veto = false ->
   Test.handle (Test.handle h line) line = Test.handle h line)
  /\ (self_veto = true ->
      Harness.state (Test.handle h line) = Some passed
      /\ Harness.state (Test.handle (Test.handle h line) line) = Some failed).
Proof.
  cbv zeta. split.
  - unfold Test.handle, Harness.scan_fault, Harness.scan_coverage.
    destruct h as [st ty rx ms od rp ts i fof flt cc np].
    destruct (result_re_match line) as [[g1 g3]|],
      (str_in Test.RUN_PASSED line), (str_in Test.RUN_FAILED line),
      (str_in Harness.FAULT line), (str_in Harness.GCOV_START line),
      (str_in Harness.GCOV_END line), fof, flt;
      cbn; intros Hv; try discriminate Hv;
      unfold Harness.set_tests; cbn; rewrite ?insert_insert_eq; reflexivity.
  - intros Hv.
    apply andb_true_iff in Hv as [Hv Hnf]. apply negb_true_iff in Hnf.
    apply andb_true_iff in Hv as [Hv Hp].
    apply andb_true_iff in Hv as [Hv Hm].
    apply andb_true_iff in Hv as [Hpol Hf]. apply negb_true_iff in Hf.
    rewrite !Test_handle_state, Test_handle_fault, Hpol, Hf, Hm, Hp, Hnf.
    split; reflexivity.
Qed.

(** The exception, on the line of a run that faults while it succeeds. *)
Lemma Test_handle_replay_witness :
  Harness.state
    (Test.handle suite1 "ZEPHYR FATAL ERROR PROJECT EXECUTION SUCCESSFUL")
  = Some passed
  /\ Harness.state
       (Test.handle
          (Test.handle suite1
             "ZEPHYR FATAL ERROR PROJECT EXECUTION SUCCESSFUL")
          "ZEPHYR FATAL ERROR PROJECT EXECUTION SUCCESSFUL")
     = Some failed.
Proof.
  apply (proj2 (Test_handle_replay suite1
                  "ZEPHYR FATAL ERROR PROJECT EXECUTION SUCCESSFUL")).
  reflexivity.
Defined.

(** ** The console matcher over a whole run *)

Section ConsoleRuns.

Context {E : RegexEngine}.
Implicit Types (c : Console.t) (line : string) (ps : list Pattern).

Lemma remaining_nil (lines : list string) : remaining [] lines = [].
Proof. by destruct lines. Qed.

Lemma remaining_length (lines : list string) :
  forall ps, length (remaining ps lines) <= length ps.
Proof.
  induction lines as [|l ls IH]; intros ps; cbn; [lia|].
  destruct ps as [|p ps]; [cbn; lia|].
  destruct (re_search p l); [specialize (IH ps) | specialize (IH (p :: ps))];
    cbn in *; lia.
Qed.

(** Trying each line against the first pattern left finds a match of all
    patterns, in order, whenever the lines hold one. *)
Lemma remaining_greedy (lines : list string) :
  forall ps,
    remaining ps lines = [] <->
    exists sub, sublist sub lines
                /\ Forall2 (fun p l => re_search p l = true) ps sub.
Proof.
  induction lines as [|l ls IH]; intros ps; cbn.
  - split.
    + intros ->. exists []. split; constructor.
    + intros (sub & Hsub & Hall). apply sublist_nil_r in Hsub as ->.
      by apply Forall2_nil_inv_r in Hall.
  - destruct ps as [|p ps].
    { split; [|reflexivity]. intros _. exists [].
      split; [apply sublist_nil_l | constructor]. }
    destruct (re_search p l) eqn:Hs; rewrite IH; split.
    + intros (sub & Hsub & Hall). exists (l :: sub).
      split; [by apply sublist_skip | by constructor].
    + intros (sub & Hsub & Hall).
      apply Forall2_cons_inv_l in Hall as (s & sub' & Hps & Hall & ->).
      exists sub'. split; [|exact Hall].
      apply sublist_cons_r in Hsub as [Hsub|(k & [= <- <-] & Hsub)];
        [|exact Hsub].
      apply sublist_cons_l in Hsub as (k1 & k2 & -> & Hsub).
      by apply sublist_inserts_l, sublist_cons.
    + intros (sub & Hsub & Hall). exists sub.
      split; [by apply sublist_cons | exact Hall].
    + intros (sub & Hsub & Hall). exists sub. split; [|exact Hall].
      apply sublist_cons_r in Hsub as [Hsub|(k & -> & Hsub)]; [exact Hsub|].
      apply Forall2_cons_inv_r in Hall as (p' & ps' & Hp & _ & [= <- <-]).
      congruence.
Qed.

Lemma handle_ordered c line ps c' :
  Harness.type (Console.base c) = Some "multi_line" ->
  Harness.ordered (Console.base c) = true ->
  Console.patterns c = Some ps ->
  Console.handle c line = Ok c' ->
  match ps !! Harness.next_pattern (Console.base c) with
  | Some p =>
      if re_search p line then
        Harness.next_pattern (Console.base c')
        = Harness.next_pattern (Console.base c) + 1
        /\ Harness.state (Console.base c')
           = (if length ps <=? Harness.next_pattern (Console.base c) + 1
              then Some passed else Harness.state (Console.base c))
      else
        Harness.next_pattern (Console.base c')
        = Harness.next_pattern (Console.base c)
        /\ Harness.state (Console.base c') = Harness.state (Console.base c)
  | None =>
      Harness.next_pattern (Console.base c')
      = Harness.next_pattern (Console.base c)
      /\ Harness.state (Console.base c') = Harness.state (Console.base c)
  end.
Proof.
  intros Hty Hord Hps Hh.
  destruct (dispatch_ordered c line ps Hty Hord Hps) as (c1 & Hd & Hc1).
  destruct (handle_after_dispatch _ _ _ Hd) as (c'' & Hh' & Hst & Hnp & _).
  assert (c'' = c') as -> by congruence.
  rewrite Hst, Hnp.
  destruct (ps !! Harness.next_pattern (Console.base c)) as [p|];
    [destruct (re_search p line)|]; by subst.
Qed.

(** The cursor of the ordered mode counts the patterns that [remaining]
    has consumed, and the verdict is set when it reaches the end. *)
Lemma run_ordered (lines : list string) ps :
  forall c c',
    Harness.type (Console.base c) = Some "multi_line" ->
    Harness.ordered (Console.base c) = true ->
    Console.patterns c = Some ps ->
    Harness.next_pattern (Console.base c) <= length ps ->
    Console.run c lines = Ok c' ->
    Harness.next_pattern (Console.base c') + length
      (remaining (drop (Harness.next_pattern (Console.base c)) ps) lines)
    = length ps
    /\ Harness.next_pattern (Console.base c)
       <= Harness.next_pattern (Console.base c')
    /\ (Harness.state (Console.base c') = Some passed <->
        Harness.state (Console.base c) = Some passed
        \/ (Harness.next_pattern (Console.base c) < length ps
            /\ Harness.next_pattern (Console.base c') = length ps)).
Proof.
  induction lines as [|l ls IH]; intros c c' Hty Hord Hps Hle Hr.
  - injection Hr as <-. cbn. rewrite length_drop. split; [lia|].
    split; [lia|]. split; [auto|]. intros [?|[? ?]]; [assumption|lia].
  - rewrite Console_run_cons in Hr. apply bind_Ok in Hr as (c1 & Hh & Hr).
    destruct (handle_frame _ _ _ Hh) as (_ & Hps1 & Hty1 & _ & Hord1 & _).
    rewrite Hty in Hty1. rewrite Hord in Hord1. rewrite Hps in Hps1.
    pose proof (handle_ordered _ _ _ _ Hty Hord Hps Hh) as Hstep.
    destruct (ps !! Harness.next_pattern (Console.base c)) as [p|] eqn:Hp.
    + pose proof (lookup_lt_Some _ _ _ Hp) as Hlt.
      rewrite (drop_S _ _ _ Hp). cbn [remaining].
      destruct (re_search p l).
      * destruct Hstep as [Hnp Hst].
        destruct (IH c1 c' Hty1 Hord1 Hps1 ltac:(lia) Hr) as (Hlen & Hmono & Hpass).
        rewrite Hnp in Hlen, Hmono, Hpass.
        rewrite <- Nat.add_1_r. split; [exact Hlen|]. split; [lia|].
        rewrite Hpass, Hst.
        destruct (Nat.leb_spec (length ps)
                    (Harness.next_pattern (Console.base c) + 1)).
        -- split; [intros _|auto]. right. split; [lia|]. lia.
        -- split; (intros [?|[? ?]]; [auto|right; split; lia]).
      * destruct Hstep as [Hnp Hst].
        destruct (IH c1 c' Hty1 Hord1 Hps1 ltac:(lia) Hr) as (Hlen & Hmono & Hpass).
        rewrite Hnp in Hlen, Hmono, Hpass. rewrite Hst in Hpass.
        rewrite (drop_S _ _ _ Hp) in Hlen. auto.
    + destruct Hstep as [Hnp Hst].
      destruct (IH c1 c' Hty1 Hord1 Hps1 ltac:(lia) Hr) as (Hlen & Hmono & Hpass).
      rewrite Hnp in Hlen, Hmono, Hpass. rewrite Hst in Hpass.
      apply lookup_ge_None in Hp.
      rewrite drop_ge in * by lia. rewrite remaining_nil in *. auto.
Qed.

(** In multi-line ordered mode the verdict after a run is passed exactly
    when the pattern list is not empty and the handled lines contain, in
    their order, one line for each pattern that the pattern matches: the
    first-come matching of the cursor misses no such selection. *)
Theorem ordered_run_subsequence (instance : Instance) c ps :
  Console.configure Console.init instance = Ok c ->
  Harness.type (Console.base c) = Some "multi_line" ->
  Harness.ordered (Console.base c) = true ->
  Console.patterns c = Some ps ->
  forall lines : list string,
    exists c', Console.run c lines = Ok c'
      /\ (Harness.state (Console.base c') = Some passed <->
          ps <> []
          /\ exists sub, sublist sub lines
                /\ Forall2 (fun p l => re_search p l = true) ps sub).
Proof.
  intros Hc Hty Hord Hps lines.
  destruct (configure_fresh _ _ Hc) as (Hcfg & Hst & _ & Hnp).
  destruct (run_configured lines c Hcfg) as (c' & Hr & _).
  exists c'. split; [exact Hr|].
  destruct (run_ordered lines ps c c' Hty Hord Hps ltac:(lia) Hr)
    as (Hlen & _ & Hpass).
  rewrite Hnp in Hlen, Hpass. rewrite Hst in Hpass. rewrite drop_0 in Hlen.
  rewrite Hpass, <- remaining_greedy. clear Hpass. split.
  - intros [[=]|[Hlt Hend]]. split; [intros ->; cbn in Hlt; lia|].
    apply length_zero_iff_nil. lia.
  - intros [Hne Hrem]. right. rewrite Hrem in Hlen. cbn in Hlen.
    split; [destruct ps; [done | cbn; lia] | lia].
Qed.

(** The cursor of the ordered mode never passes the end of the pattern
    list and never moves back, and the verdict is passed exactly when a
    list that is not empty has been walked to its end. *)
Theorem ordered_cursor_invariant (instance : Instance) c ps :
  Console.configure Console.init instance = Ok c ->
  Harness.type (Console.base c) = Some "multi_line" ->
  Harness.ordered (Console.base c) = true ->
  Console.patterns c = Some ps ->
  forall lines more : list string,
    exists c1 c2,
      Console.run c lines = Ok c1
      /\ Console.run c (lines ++ more) = Ok c2
      /\ Harness.next_pattern (Console.base c1)
         <= Harness.next_pattern (Console.base c2)
      /\ Harness.next_pattern (Console.base c2) <= length ps
      /\ (Harness.state (Console.base c1) = Some passed <->
          ps <> [] /\ Harness.next_pattern (Console.base c1) = length ps).
Proof.
  intros Hc Hty Hord Hps lines more.
  destruct (configure_fresh _ _ Hc) as (Hcfg & Hst & _ & Hnp).
  destruct (run_configured lines c Hcfg) as (c1 & Hr1 & Hcfg1).
  destruct (run_configured more c1 Hcfg1) as (c2 & Hr2 & _).
  exists c1, c2. split; [exact Hr1|]. split.
  { by rewrite Console_run_app, Hr1. }
  destruct (run_frame _ _ _ Hr1) as (_ & Hps1 & Hty1 & _ & Hord1 & _).
  rewrite Hty in Hty1. rewrite Hord in Hord1. rewrite Hps in Hps1.
  destruct (run_ordered lines ps c c1 Hty Hord Hps ltac:(lia) Hr1)
    as (Hlen1 & _ & Hpass1).
  destruct (run_ordered more ps c1 c2 Hty1 Hord1 Hps1 ltac:(lia) Hr2)
    as (Hlen2 & Hmono & _).
  split; [exact Hmono|]. split; [lia|].
  rewrite Hpass1, Hst, Hnp. split.
  - intros [[=]|[Hlt Hend]]. split; [intros ->; cbn in Hlt; lia|].
    exact Hend.
  - intros [Hne Hend]. right. split; [destruct ps; [done | cbn; lia]|].
    exact Hend.
Qed.

(** A multi-line harness configured with no pattern at all: in ordered
    mode it never passes, in unordered mode it passes on the first line it
    handles, whatever the line. *)
Theorem empty_pattern_list (instance : Instance) c :
  Console.configure Console.init instance = Ok c ->
  Harness.type (Console.base c) = Some "multi_line" ->
  Harness.regex (Console.base c) = [] ->
  forall lines : list string,
    exists c', Console.run c lines = Ok c'
      /\ Harness.state (Console.base c')
         = if Harness.ordered (Console.base c) then None
           else match lines with
                | [] => None
                | _ :: _ => Some passed
                end.
Proof.
  intros Hc Hty Hrx lines.
  destruct (configure_fresh _ _ Hc) as (Hcfg & Hst & Hm & Hnp).
  destruct (run_configured lines c Hcfg) as (c' & Hr & _).
  exists c'. split; [exact Hr|].
  destruct Hcfg as [_ Hmulti]. destruct (Hmulti Hty) as (ps & Hps & Hlen).
  rewrite Hrx in Hlen.
  destruct (Harness.ordered (Console.base c)) eqn:Hord.
  - destruct (run_ordered lines ps c c' Hty Hord Hps ltac:(lia) Hr)
      as (_ & _ & Hpass).
    destruct (run_state _ _ _ Hr) as [H|H]; [congruence|].
    apply Hpass in H as [H|[H _]]; [congruence|]. cbn in Hlen. lia.
  - destruct (run_unordered lines ps c c' Hty Hord Hps Hr)
      as (Hnd & Hsub & _ & _ & Hpass).
    { rewrite Hm. apply NoDup_nil_2. }
    { rewrite Hm. intros x []%elem_of_nil. }
    destruct (keys_bound _ _ Hnd Hsub) as [Hle _].
    rewrite Hrx in Hle, Hpass. cbn in Hle.
    destruct lines as [|l ls].
    + injection Hr as <-. exact Hst.
    + apply Hpass. right. split; [discriminate | cbn; lia].
Qed.

Lemma handle_one_line c line p c' :
  Harness.type (Console.base c) = Some "one_line" ->
  Console.pattern c = Some p ->
  Console.handle c line = Ok c' ->
  Harness.state (Console.base c')
  = if re_search p line then Some passed else Harness.state (Console.base c).
Proof.
  intros Hty Hp. rewrite Console_handle_unfold. unfold Console.dispatch.
  rewrite (type_is_true _ _ Hty), Hp. cbn [attr mbind result_bind].
  intros [= <-]. cbn. rewrite console_tail_state.
  by destruct (re_search p line).
Qed.

(** In single-line mode the verdict after a run is passed exactly when one
    of the handled lines matches the pattern. *)
Theorem one_line_run (instance : Instance) c p :
  Console.configure Console.init instance = Ok c ->
  Harness.type (Console.base c) = Some "one_line" ->
  Console.pattern c = Some p ->
  forall lines : list string,
    exists c', Console.run c lines = Ok c'
      /\ (Harness.state (Console.base c') = Some passed <->
          exists l, l ∈ lines /\ re_search p l = true).
Proof.
  intros Hc Hty Hp lines.
  destruct (configure_fresh _ _ Hc) as (Hcfg & Hst & _ & _).
  destruct (run_configured lines c Hcfg) as (c' & Hr & _).
  exists c'. split; [exact Hr|].
  assert (H : Harness.state (Console.base c') = Some passed <->
              Harness.state (Console.base c) = Some passed
              \/ exists l, l ∈ lines /\ re_search p l = true).
  { clear Hc Hcfg Hst. revert c Hty Hp Hr.
    induction lines as [|l ls IH]; intros c Hty Hp Hr.
    - injection Hr as <-. split; [auto|].
      intros [?|(l & []%elem_of_nil & _)]. assumption.
    - rewrite Console_run_cons in Hr. apply bind_Ok in Hr as (c1 & Hh & Hr).
      destruct (handle_frame _ _ _ Hh) as (Hp1 & _ & Hty1 & _).
      rewrite Hty in Hty1. rewrite Hp in Hp1.
      rewrite (IH c1 Hty1 Hp1 Hr), (handle_one_line _ _ _ _ Hty Hp Hh).
      destruct (re_search p l) eqn:Hs; split.
      + intros _. right. exists l. split; [apply elem_of_cons; auto | exact Hs].
      + auto.
      + intros [?|(l' & Hin & Hl')]; [auto|]. right. exists l'.
        split; [apply elem_of_cons; auto | exact Hl'].
      + intros [?|(l' & [->|Hin]%elem_of_cons & Hl')];
          [auto | congruence | eauto]. }
  rewrite H, Hst. split; [intros [[=]|?]; assumption | auto].
Qed.

(** A descriptor whose type is neither one_line nor multi_line, or that
    has no configuration at all: [configure] succeeds and compiles nothing,
    whatever the pattern list holds, and no line ever changes the verdict,
    the cursor or the matches. *)
Theorem no_mode_never_passes (instance : Instance) :
  Harness.type (Harness.configure Harness.init instance) <> Some "one_line" ->
  Harness.type (Harness.configure Harness.init instance)
  <> Some "multi_line" ->
  exists c, Console.configure Console.init instance = Ok c
    /\ Console.pattern c = None
    /\ Console.patterns c = None
    /\ forall lines : list string,
         exists c', Console.run c lines = Ok c'
           /\ Harness.state (Console.base c') = None
           /\ Harness.next_pattern (Console.base c') = 0
           /\ Harness.matches (Console.base c') = [].
Proof.
  intros H1 Hm. eexists. split.
  { unfold Console.configure, Console.type_is.
    change (Console.base (Console.set_base ?h _)) with h.
    cbn [Console.init Console.base].
    by rewrite !bool_decide_false. }
  split; [reflexivity|]. split; [reflexivity|].
  set (c := Console.set_base _ _).
  assert (Hbase : Console.base c = Harness.configure Harness.init instance)
    by reflexivity.
  destruct (Harness_configure_run_state Harness.init instance)
    as (Hst & Hms & _ & _ & _ & Hnp & _).
  assert (Hst' : Harness.state (Console.base c) = None)
    by (rewrite Hbase; exact Hst).
  assert (Hms' : Harness.matches (Console.base c) = [])
    by (rewrite Hbase; exact Hms).
  assert (Hnp' : Harness.next_pattern (Console.base c) = 0)
    by (rewrite Hbase; exact Hnp).
  rewrite <- Hbase in H1, Hm. clear Hst Hms Hnp.
  rename Hst' into Hst, Hms' into Hms, Hnp' into Hnp.
  clearbody c. clear Hbase. intros lines.
  revert c H1 Hm Hst Hms Hnp.
  induction lines as [|l ls IH]; intros c H1 Hm Hst Hms Hnp; [cbn; eauto|].
  assert (Hd : Console.dispatch c l = Ok c).
  { unfold Console.dispatch, Console.type_is.
    by rewrite !bool_decide_false. }
  destruct (handle_after_dispatch _ _ _ Hd) as (c1 & Hh & Hst1 & Hnp1 & Hms1).
  destruct (handle_frame _ _ _ Hh) as (_ & _ & Hty1 & _).
  rewrite Console_run_cons, Hh. cbn [mbind result_bind].
  apply IH; congruence.
Qed.

Lemma compile_all_Forall2 (rs : list string) :
  forall ps, Console.compile_all rs = Ok ps <->
             Forall2 (fun r p => re_compile r = Ok p) rs ps.
Proof.
  induction rs as [|r rs IH]; intros ps; cbn.
  - split; [intros [= <-]; constructor | intros ->%Forall2_nil_inv_l; done].
  - split.
    + intros H. inv_result. subst. constructor; [exact Ha | by apply IH].
    + intros H. apply Forall2_cons_inv_l in H as (p & ps' & Hp & Hps & ->).
      apply IH in Hps. by rewrite Hp, Hps.
Qed.

Lemma compile_all_Raise (before after : list string) (r : string)
    (e : PyError) :
  Forall (fun r' => exists p, re_compile r' = Ok p) before ->
  re_compile r = Raise e ->
  Console.compile_all (before ++ r :: after) = Raise e.
Proof.
  intros Hb Hr. induction Hb as [|r' before (p & Hp) _ IH]; cbn.
  - by rewrite Hr.
  - by rewrite Hp, IH.
Qed.

(** [configure] in multi-line mode succeeds exactly when every pattern of
    the list compiles, and then holds the compiled patterns one for one in
    the order of the list and no single-line pattern; otherwise it raises
    the error of the first pattern that does not compile. *)
Theorem multi_line_configure (instance : Instance) (cfg : Config) :
  harness_config (test instance) = Some cfg ->
  cfg_type cfg = Some "multi_line" ->
  (forall c,
      Console.configure Console.init instance = Ok c <->
      exists ps,
        Forall2 (fun r p => re_compile r = Ok p)
          (default [] (cfg_regex cfg)) ps
        /\ c = {| Console.base := Harness.configure Harness.init instance;
                  Console.pattern := None;
                  Console.patterns := Some ps |})
  /\ (forall (before after : list string) (r : string) (e : PyError),
         default [] (cfg_regex cfg) = before ++ r :: after ->
         Forall (fun r' => exists p, re_compile r' = Ok p) before ->
         re_compile r = Raise e ->
         Console.configure Console.init instance = Raise e).
Proof.
  intros Hcfg Hty.
  destruct (Harness_configure_config Harness.init instance cfg Hcfg)
    as (Hty' & Hrs' & _); [rewrite Hty; eauto|].
  rewrite Hty in Hty'.
  unfold Console.configure, Console.type_is.
  change (Console.base (Console.set_base ?h _)) with h.
  cbn [Console.init Console.base].
  rewrite Hty', Hrs', bool_decide_false, bool_decide_true by done.
  split.
  - intros c. split.
    + intros H. inv_result. subst c. exists a.
      split; [by apply compile_all_Forall2 | reflexivity].
    + intros (ps & Hps & ->). apply compile_all_Forall2 in Hps.
      by rewrite Hps.
  - intros before after r e -> Hb Hr.
    by rewrite (compile_all_Raise _ _ _ _ Hb Hr).
Qed.

(** *** The fault flag, the coverage flag and the results table *)

Lemma Console_run_fault (lines : list string) :
  forall c c', Console.run c lines = Ok c' ->
    Harness.fault (Console.base c')
    = Harness.fault (Console.base c)
      || (Harness.fail_on_fault (Console.base c)
          && existsb (str_in Harness.FAULT) lines).
Proof.
  induction lines as [|l ls IH]; intros c c' Hr.
  - injection Hr as <-. cbn. by rewrite andb_false_r, orb_false_r.
  - rewrite Console_run_cons in Hr. apply bind_Ok in Hr as (c1 & Hh & Hr).
    destruct (handle_frame _ _ _ Hh) as (_ & _ & _ & _ & _ & _ & _ & Hpol).
    rewrite (IH _ _ Hr), (handle_fault _ _ _ Hh), Hpol. cbn [existsb].
    destruct (Harness.fault (Console.base c)),
      (Harness.fail_on_fault (Console.base c)), (str_in Harness.FAULT l);
      reflexivity.
Qed.

(** The fault flag after a run, in both matchers: it is set exactly when
    it was set before or the fault policy is active and some handled line
    carries the fault marker; nothing ever clears it. *)
Theorem fault_flag_over_run :
  (forall (h : Harness.t) (lines : list string),
      Harness.fault (Test.run h lines)
      = Harness.fault h
        || (Harness.fail_on_fault h && existsb (str_in Harness.FAULT) lines))
  /\ (forall c (lines : list string),
         configured c ->
         exists c', Console.run c lines = Ok c'
           /\ Harness.fault (Console.base c')
              = Harness.fault (Console.base c)
                || (Harness.fail_on_fault (Console.base c)
                    && existsb (str_in Harness.FAULT) lines)).
Proof.
  split; [intros h lines; apply Test_run_fault|].
  intros c lines Hc. destruct (run_configured lines c Hc) as (c' & Hr & _).
  exists c'. split; [exact Hr | by apply Console_run_fault].
Qed.

Lemma Test_handle_capture (h : Harness.t) (line : string) :
  Harness.capture_coverage (Test.handle h line)
  = if str_in Harness.GCOV_START line then true
    else if str_in Harness.GCOV_END line then false
         else Harness.capture_coverage h.
Proof. test_handle_cases h line. Qed.

Lemma console_tail_capture (h : Harness.t) (line : string) :
  Harness.capture_coverage (console_tail h line)
  = if str_in Harness.GCOV_START line then true
    else if str_in Harness.GCOV_END line then false
         else Harness.capture_coverage h.
Proof. console_tail_cases h line. Qed.

Lemma handle_capture c line c' :
  Console.handle c line = Ok c' ->
  Harness.capture_coverage (Console.base c')
  = if str_in Harness.GCOV_START line then true
    else if str_in Harness.GCOV_END line then false
         else Harness.capture_coverage (Console.base c).
Proof.
  rewrite Console_handle_unfold. intros H. inv_result. subst c'.
  destruct (dispatch_frame _ _ _ Ha) as (_ & _ & _ & (_ & _ & Hcc)).
  cbn. by rewrite console_tail_capture, Hcc.
Qed.

(** The coverage flag after a run, in both matchers: lines without a
    coverage marker leave it alone, and the last line with a marker
    decides it, true if that line has the start marker (also when it has
    the end marker as well), false otherwise. *)
Theorem coverage_flag_last_marker :
  (forall (h : Harness.t) (lines : list string),
      (forall l, l ∈ lines -> str_in Harness.GCOV_START l = false
                              /\ str_in Harness.GCOV_END l = false) ->
      Harness.capture_coverage (Test.run h lines)
      = Harness.capture_coverage h)
  /\ (forall (h : Harness.t) (before after : list string) (line : string),
         str_in Harness.GCOV_START line = true
         \/ str_in Harness.GCOV_END line = true ->
         (forall l, l ∈ after -> str_in Harness.GCOV_START l = false
                                 /\ str_in Harness.GCOV_END l = false) ->
         Harness.capture_coverage (Test.run h (before ++ line :: after))
         = str_in Harness.GCOV_START line)
  /\ (forall c (lines : list string),
         configured c ->
         (forall l, l ∈ lines -> str_in Harness.GCOV_START l = false
                                 /\ str_in Harness.GCOV_END l = false) ->
         exists c', Console.run c lines = Ok c'
           /\ Harness.capture_coverage (Console.base c')
              = Harness.capture_coverage (Console.base c))
  /\ (forall c (before after : list string) (line : string),
         configured c ->
         str_in Harness.GCOV_START line = true
         \/ str_in Harness.GCOV_END line = true ->
         (forall l, l ∈ after -> str_in Harness.GCOV_START l = false
                                 /\ str_in Harness.GCOV_END l = false) ->
         exists c', Console.run c (before ++ line :: after) = Ok c'
           /\ Harness.capture_coverage (Console.base c')
              = str_in Harness.GCOV_START line).
Proof.
  assert (Hquiet : forall (lines : list string) (h : Harness.t),
             (forall l, l ∈ lines -> str_in Harness.GCOV_START l = false
                                     /\ str_in Harness.GCOV_END l = false) ->
             Harness.capture_coverage (Test.run h lines)
             = Harness.capture_coverage h).
  { induction lines as [|l ls IH]; intros h Hq; [reflexivity|].
    rewrite Test_run_cons, IH.
    - destruct (Hq l) as [Hs He]; [apply elem_of_cons; auto|].
      by rewrite Test_handle_capture, Hs, He.
    - intros l' Hin. apply Hq, elem_of_cons. auto. }
  assert (Hcquiet : forall (lines : list string) c c',
             Console.run c lines = Ok c' ->
             (forall l, l ∈ lines -> str_in Harness.GCOV_START l = false
                                     /\ str_in Harness.GCOV_END l = false) ->
             Harness.capture_coverage (Console.base c')
             = Harness.capture_coverage (Console.base c)).
  { induction lines as [|l ls IH]; intros c c' Hr Hq.
    - by injection Hr as <-.
    - rewrite Console_run_cons in Hr. apply bind_Ok in Hr as (c1 & Hh & Hr).
      rewrite (IH _ _ Hr), (handle_capture _ _ _ Hh).
      + destruct (Hq l) as [-> ->]; [apply elem_of_cons; auto|reflexivity].
      + intros l' Hin. apply Hq, elem_of_cons. auto. }
  split; [intros h lines; apply Hquiet|]. split; [|split].
  - intros h before after line Hmark Hafter.
    rewrite Test_run_app, Test_run_cons, (Hquiet after _ Hafter),
      Test_handle_capture.
    destruct (str_in Harness.GCOV_START line); [reflexivity|].
    by destruct Hmark as [[=]| ->].
  - intros c lines Hc Hq. destruct (run_configured lines c Hc) as (c' & Hr & _).
    exists c'. split; [exact Hr | by eapply Hcquiet].
  - intros c before after line Hc Hmark Hafter.
    destruct (run_configured (before ++ line :: after) c Hc) as (c' & Hr & _).
    exists c'. split; [exact Hr|].
    rewrite Console_run_app in Hr. apply bind_Ok in Hr as (c1 & _ & Hr).
    rewrite Console_run_cons in Hr. apply bind_Ok in Hr as (c2 & Hh & Hr).
    rewrite (Hcquiet _ _ _ Hr Hafter), (handle_capture _ _ _ Hh).
    destruct (str_in Harness.GCOV_START line); [reflexivity|].
    by destruct Hmark as [[=]| ->].
Qed.

Lemma Console_run_tests (lines : list string) :
  forall c c', Console.run c lines = Ok c' -> lines <> [] ->
    Harness.tests (Console.base c')
    = <[Harness.id (Console.base c) :=
          if bool_decide (Harness.state (Console.base c') = Some passed)
          then "PASS" else "FAIL"]> (Harness.tests (Console.base c)).
Proof.
  induction lines as [|l ls IH]; intros c c' Hr Hne; [done|].
  rewrite Console_run_cons in Hr. apply bind_Ok in Hr as (c1 & Hh & Hr).
  destruct (handle_frame _ _ _ Hh) as (_ & _ & _ & _ & _ & _ & Hid & _).
  destruct ls as [|l' ls].
  - injection Hr as <-. exact (handle_tests _ _ _ Hh).
  - rewrite (IH _ _ Hr), (handle_tests _ _ _ Hh), Hid by done.
    apply insert_insert_eq.
Qed.

(** The results table of a console harness holds one entry and no more:
    after a run of one or more lines it is the single entry of the test
    identifier, PASS or FAIL by the verdict at the end of the run. *)
Theorem console_table_single_entry (instance : Instance) c :
  Console.configure Console.init instance = Ok c ->
  forall lines : list string,
    lines <> [] ->
    exists c', Console.run c lines = Ok c'
      /\ Harness.tests (Console.base c')
         = {[ Some (test_id (test instance)) :=
                if bool_decide (Harness.state (Console.base c') = Some passed)
                then "PASS" else "FAIL" ]}.
Proof.
  intros Hc lines Hne.
  destruct (run_configured lines c (configure_configured _ _ _ Hc))
    as (c' & Hr & _).
  exists c'. split; [exact Hr|].
  rewrite (Console_run_tests _ _ _ Hr Hne).
  apply configure_base in Hc. rewrite Hc.
  pose proof (Harness_configure_run_state Harness.init instance) as Hrs.
  cbv zeta in Hrs. destruct Hrs as (_ & _ & Hts & _ & _ & _ & Hid & _).
  cbn [Console.init Console.base]. rewrite Hid, Hts. apply insert_empty.
Qed.

(** *** The evidence kept by the unordered mode *)

Lemma run_unordered_evidence (lines : list string) ps :
  forall c c',
    Harness.type (Console.base c) = Some "multi_line" ->
    Harness.ordered (Console.base c) = false ->
    Console.patterns c = Some ps ->
    Console.run c lines = Ok c' ->
    let regex := Harness.regex (Console.base c) in
    let m := Harness.matches (Console.base c) in
    let m' := Harness.matches (Console.base c') in
    (forall k v, od_get k m = Some v -> od_get k m' = Some v)
    /\ (forall k v, od_get k m' = Some v ->
          od_get k m = Some v
          \/ (od_get k m = None /\ v ∈ lines /\ hit regex ps v 0 k)).
Proof.
  induction lines as [|l ls IH]; intros c c' Hty Hord Hps Hr regex m m'.
  - injection Hr as <-. subst m'. auto.
  - rewrite Console_run_cons in Hr. apply bind_Ok in Hr as (c1 & Hh & Hr).
    destruct (handle_frame _ _ _ Hh) as (_ & Hps1 & Hty1 & Hrx1 & Hord1 & _).
    destruct (handle_unordered _ _ _ _ Hty Hord Hps Hh)
      as (Hkeep & Hnew & Hnone & _).
    fold regex m in Hkeep, Hnew, Hnone.
    rewrite Hty in Hty1. rewrite Hord in Hord1. rewrite Hps in Hps1.
    specialize (IH c1 c' Hty1 Hord1 Hps1 Hr). cbn zeta in IH.
    rewrite Hrx1 in IH. fold regex m' in IH. destruct IH as [IHkeep IHval].
    split; [auto|].
    intros k v Hv. destruct (od_get k m) as [v0|] eqn:Hk.
    + left. rewrite (IHkeep k v0 (Hkeep k v0 Hk)) in Hv. congruence.
    + right. split; [reflexivity|].
      destruct (IHval k v Hv) as [H1|(H1 & Hin & Hh')].
      * destruct (classic_hit regex ps l k 0) as [Hhit|Hhit].
        -- rewrite (Hnew k Hk Hhit) in H1. injection H1 as <-.
           split; [apply elem_of_cons; auto | exact Hhit].
        -- rewrite (Hnone k Hk Hhit) in H1. discriminate.
      * split; [apply elem_of_cons; auto | exact Hh'].
Qed.

(** In multi-line unordered mode the recorded matches stay within bounds
    and are sound: after every run their source strings are pairwise
    distinct, there are no more of them than configured patterns, and each
    evidence stored under a source string is one of the handled lines, one
    that a pattern compiled from that source string matches. *)
Theorem unordered_matches_sound (instance : Instance) c ps :
  Console.configure Console.init instance = Ok c ->
  Harness.type (Console.base c) = Some "multi_line" ->
  Harness.ordered (Console.base c) = false ->
  Console.patterns c = Some ps ->
  forall lines : list string,
    exists c', Console.run c lines = Ok c'
      /\ NoDup (Harness.matches (Console.base c')).*1
      /\ length (Harness.matches (Console.base c'))
         <= length (Harness.regex (Console.base c))
      /\ forall r evidence,
           od_get r (Harness.matches (Console.base c')) = Some evidence ->
           evidence ∈ lines
           /\ exists i p, Harness.regex (Console.base c) !! i = Some r
                          /\ ps !! i = Some p
                          /\ re_search p evidence = true.
Proof.
  intros Hc Hty Hord Hps lines.
  destruct (configure_fresh _ _ Hc) as (Hcfg & _ & Hm & _).
  destruct (run_configured lines c Hcfg) as (c' & Hr & _).
  exists c'. split; [exact Hr|].
  destruct (run_unordered lines ps c c' Hty Hord Hps Hr)
    as (Hnd & Hsub & _).
  { rewrite Hm. apply NoDup_nil_2. }
  { rewrite Hm. intros x []%elem_of_nil. }
  split; [exact Hnd|]. split; [by apply keys_bound|].
  intros r ev Hev.
  destruct (run_unordered_evidence lines ps c c' Hty Hord Hps Hr) as [_ Hval].
  destruct (Hval r ev Hev) as [H|(_ & Hin & (j & p & Hp & Hj & Hs))].
  - rewrite Hm in H. discriminate.
  - split; [exact Hin|]. exists j, p. auto.
Qed.

(** First match wins, over a run: when a pattern matches a line and no
    pattern with the same source string matched an earlier line, that line
    is the evidence stored under the source string, and no later line
    replaces it. *)
Theorem unordered_first_evidence (instance : Instance) c ps :
  Console.configure Console.init instance = Ok c ->
  Harness.type (Console.base c) = Some "multi_line" ->
  Harness.ordered (Console.base c) = false ->
  Console.patterns c = Some ps ->
  forall (before after : list string) (line : string) (i : nat)
         (r : string) p,
    Harness.regex (Console.base c) !! i = Some r ->
    ps !! i = Some p ->
    re_search p line = true ->
    (forall l j q, l ∈ before ->
                   Harness.regex (Console.base c) !! j = Some r ->
                   ps !! j = Some q -> re_search q l = false) ->
    exists c', Console.run c (before ++ line :: after) = Ok c'
      /\ od_get r (Harness.matches (Console.base c')) = Some line.
Proof.
  intros Hc Hty Hord Hps before after line i r p Hr Hp Hs Hbefore.
  destruct (configure_fresh _ _ Hc) as (Hcfg & _ & Hm & _).
  destruct (run_configured (before ++ line :: after) c Hcfg) as (c' & Hrun & _).
  exists c'. split; [exact Hrun|].
  rewrite Console_run_app in Hrun. apply bind_Ok in Hrun as (c1 & Hr1 & Hrun).
  rewrite Console_run_cons in Hrun. apply bind_Ok in Hrun as (c2 & Hh & Hr2).
  destruct (run_frame _ _ _ Hr1) as (_ & Hps1 & Hty1 & Hrx1 & Hord1 & _).
  rewrite Hty in Hty1. rewrite Hord in Hord1. rewrite Hps in Hps1.
  destruct (handle_frame _ _ _ Hh) as (_ & Hps2 & Hty2 & Hrx2 & Hord2 & _).
  rewrite Hty1 in Hty2. rewrite Hord1 in Hord2. rewrite Hps1 in Hps2.
  destruct (run_unordered_evidence before ps c c1 Hty Hord Hps Hr1)
    as [_ Hval1].
  destruct (handle_unordered _ _ _ _ Hty1 Hord1 Hps1 Hh) as (_ & Hnew & _).
  destruct (run_unordered_evidence after ps c2 c' Hty2 Hord2 Hps2 Hr2)
    as [Hkeep2 _].
  apply Hkeep2, Hnew.
  - destruct (od_get r (Harness.matches (Console.base c1))) as [v|] eqn:Hv;
      [|reflexivity].
    destruct (Hval1 r v Hv) as [H|(_ & Hin & (j & q & Hq & Hj & Hsq))].
    + rewrite Hm in H. discriminate.
    + rewrite (Hbefore v j q Hin Hj Hq) in Hsq. discriminate.
  - rewrite Hrx1. exists i, p. auto.
Qed.

(** *** Handling a line a second time *)

Lemma set_state_same (h : Harness.t) (v : option Verdict) :
  Harness.state h = v -> Harness.set_state v h = h.
Proof. destruct h. cbn. by intros <-. Qed.

Lemma set_matches_same (h : Harness.t) (m : odict) :
  Harness.matches h = m -> Harness.set_matches m h = h.
Proof. destruct h. cbn. by intros <-. Qed.

Lemma set_base_same c : Console.set_base (Console.base c) c = c.
Proof. by destruct c. Qed.

Lemma console_tail_idem (h : Harness.t) (line : string) :
  console_tail (console_tail h line) line = console_tail h line.
Proof.
  unfold console_tail, Console.report, Harness.scan_fault,
    Harness.scan_coverage.
  destruct h as [st ty rx ms od rp ts i fof flt cc np].
  destruct (str_in Harness.FAULT line), (str_in Harness.GCOV_START line),
    (str_in Harness.GCOV_END line), fof, flt;
    cbn; case_bool_decide; cbn; case_bool_decide; cbn;
    rewrite ?insert_insert_eq; (reflexivity || contradiction).
Qed.

Lemma scan_unordered_fixed (regex : list string) line ps :
  forall i (m m' : odict),
    Console.scan_unordered regex line i ps m = Ok m' ->
    Console.scan_unordered regex line i ps m' = Ok m'.
Proof.
  induction ps as [|p ps IH]; intros i m m' H; cbn in *; [reflexivity|].
  inv_result. rewrite Ha. cbn [mbind result_bind].
  destruct (scan_unordered_spec _ _ _ _ _ _ H) as (Hkeep & _).
  assert (Hin : re_search p line = true -> od_mem a m' = true).
  { intros Hs. apply not_false_iff_true. rewrite od_mem_false.
    rewrite Hs in Hkeep. destruct (od_mem a m) eqn:Hmem; cbn in Hkeep.
    - apply not_false_iff_true in Hmem. rewrite od_mem_false in Hmem.
      destruct (od_get a m) as [v|] eqn:Hv; [|done].
      by rewrite (Hkeep a v Hv).
    - by rewrite (Hkeep a line (od_get_set_eq _ _ _)). }
  destruct (re_search p line) eqn:Hs; cbn [andb].
  - rewrite Hin by reflexivity. cbn [negb]. by eapply IH.
  - by eapply IH.
Qed.

Lemma dispatch_one_line_eq c line p :
  Harness.type (Console.base c) = Some "one_line" ->
  Console.pattern c = Some p ->
  Console.dispatch c line
  = Ok (if re_search p line
        then Console.set_base
               (Harness.set_state (Some passed) (Console.base c)) c
        else c).
Proof.
  intros Hty Hp. unfold Console.dispatch.
  by rewrite (type_is_true _ _ Hty), Hp.
Qed.

Lemma dispatch_unordered_eq c line ps :
  Harness.type (Console.base c) = Some "multi_line" ->
  Harness.ordered (Console.base c) = false ->
  Console.patterns c = Some ps ->
  Console.dispatch c line
  = m ← Console.scan_unordered (Harness.regex (Console.base c)) line 0 ps
          (Harness.matches (Console.base c));
    Ok (Console.set_base
          (if length m =? length (Harness.regex (Console.base c))
           then Harness.set_state (Some passed)
                  (Harness.set_matches m (Console.base c))
           else Harness.set_matches m (Console.base c)) c).
Proof.
  intros Hty Hord Hps. unfold Console.dispatch.
  by rewrite (type_is_false _ _ "one_line" Hty), (type_is_true _ _ Hty),
    Hord, Hps by discriminate.
Qed.

Lemma dispatch_no_mode_eq c line :
  Harness.type (Console.base c) <> Some "one_line" ->
  Harness.type (Console.base c) <> Some "multi_line" ->
  Console.dispatch c line = Ok c.
Proof.
  intros H1 Hm. unfold Console.dispatch, Console.type_is.
  by rewrite !bool_decide_false.
Qed.

(** Outside the ordered mode the console matcher is idempotent: handling
    a line again right after it was handled returns the very same state,
    so replaying a line that already matched changes neither the matches
    nor the verdict nor the results table. *)
Theorem console_handle_replay c line c1 :
  (Harness.type (Console.base c) = Some "multi_line" ->
   Harness.ordered (Console.base c) = false) ->
  Console.handle c line = Ok c1 ->
  Console.handle c1 line = Ok c1.
Proof.
  intros Hmode Hh.
  destruct (handle_frame _ _ _ Hh) as (Hp1 & Hps1 & Hty1 & Hrx1 & Hord1 & _).
  pose proof Hh as Hh'. rewrite Console_handle_unfold in Hh'.
  apply bind_Ok in Hh' as (cd & Hd & Hc1).
  destruct (handle_after_dispatch _ _ _ Hd) as (c1' & Hh1 & Hst1 & _ & Hm1).
  assert (c1' = c1) as -> by congruence. clear Hh1.
  assert (Hd1 : Console.dispatch c1 line = Ok c1).
  { destruct (decide (Harness.type (Console.base c) = Some "one_line"))
      as [T1|T1];
      [|destruct (decide (Harness.type (Console.base c) = Some "multi_line"))
          as [T2|T2]].
    - destruct (Console.pattern c) as [p|] eqn:Hp.
      2:{ unfold Console.dispatch in Hd.
          rewrite (type_is_true _ _ T1), Hp in Hd. discriminate. }
      rewrite (dispatch_one_line_eq _ _ p T1 Hp) in Hd.
      rewrite (dispatch_one_line_eq c1 line p) by congruence.
      destruct (re_search p line); [|reflexivity].
      injection Hd as <-. cbn in Hst1.
      by rewrite set_state_same, set_base_same.
    - destruct (Console.patterns c) as [ps|] eqn:Hps.
      2:{ unfold Console.dispatch in Hd.
          rewrite (type_is_false _ _ "one_line" T2), (type_is_true _ _ T2),
            (Hmode T2), Hps in Hd by discriminate. discriminate. }
      rewrite (dispatch_unordered_eq _ _ ps T2 (Hmode T2) Hps) in Hd.
      apply bind_Ok in Hd as (m' & Hscan & Hd). injection Hd as <-.
      rewrite (dispatch_unordered_eq c1 line ps)
        by (rewrite ?Hty1, ?Hord1, ?Hps1; auto).
      assert (Hm' : Harness.matches (Console.base c1) = m').
      { rewrite Hm1. cbn. by destruct (length m' =? _). }
      rewrite Hrx1, Hm', (scan_unordered_fixed _ _ _ _ _ _ Hscan).
      cbn [mbind result_bind]. rewrite (set_matches_same _ _ Hm').
      destruct (length m' =? length (Harness.regex (Console.base c))) eqn:Hl.
      + cbn in Hst1. by rewrite set_state_same, set_base_same.
      + by rewrite set_base_same.
    - apply dispatch_no_mode_eq; congruence. }
  rewrite Console_handle_unfold, Hd1. cbn [mbind result_bind]. f_equal.
  injection Hc1 as <-. cbn [Console.base Console.set_base].
  by rewrite console_tail_idem.
Qed.

End ConsoleRuns.

(** ** The further properties on concrete runs *)

(** The two patterns found in order among other lines. *)
Lemma ordered_run_subsequence_witness :
  let c := configured_console hello_world_ordered in
  exists c',
    Console.run c ["World is done"; "Hello"; "noise"; "World, done"] = Ok c'
    /\ (Harness.state (Console.base c') = Some passed <->
        [compiled "Hello"; compiled "World.*done"] <> []
        /\ exists sub,
             sublist sub ["World is done"; "Hello"; "noise"; "World, done"]
             /\ Forall2
                  (fun p l =>
                     re_search (RegexEngine := MiniRe.engine) p l = true)
                  [compiled "Hello"; compiled "World.*done"] sub).
Proof.
  intros c.
  apply (ordered_run_subsequence (E := MiniRe.engine) hello_world_ordered c
           [compiled "Hello"; compiled "World.*done"]); reflexivity.
Defined.

(** The cursor after one line and after three. *)
Lemma ordered_cursor_invariant_witness :
  let c := configured_console hello_world_ordered in
  exists c1 c2,
    Console.run c ["Hello"] = Ok c1
    /\ Console.run c (["Hello"] ++ ["noise"; "World, done"]) = Ok c2
    /\ Harness.next_pattern (Console.base c1)
       <= Harness.next_pattern (Console.base c2)
    /\ Harness.next_pattern (Console.base c2) <= 2.
Proof.
  intros c.
  destruct (ordered_cursor_invariant (E := MiniRe.engine) hello_world_ordered
              c [compiled "Hello"; compiled "World.*done"]
              eq_refl eq_refl eq_refl eq_refl ["Hello"]
              ["noise"; "World, done"])
    as (c1 & c2 & H1 & H2 & Hle & Hbound & _).
  exists c1, c2. auto.
Defined.

(** No pattern, unordered: any first line passes. *)
Lemma empty_pattern_list_witness :
  let c := configured_console no_pattern_unordered in
  Harness.regex (Console.base c) = []
  /\ exists c',
       Console.run c ["anything"] = Ok c'
       /\ Harness.state (Console.base c') = Some passed.
Proof.
  intros c. split; [reflexivity|].
  apply (empty_pattern_list (E := MiniRe.engine) no_pattern_unordered c
           eq_refl eq_refl eq_refl ["anything"]).
Defined.

(** One pattern, matched by the second line. *)
Lemma one_line_run_witness :
  let c := configured_console hello_one_line in
  exists c',
    Console.run c ["booting"; "Hello world"] = Ok c'
    /\ (Harness.state (Console.base c') = Some passed <->
        exists l, l ∈ ["booting"; "Hello world"]
                  /\ re_search (RegexEngine := MiniRe.engine)
                       (compiled "Hello (W|w)orld") l = true).
Proof.
  intros c.
  apply (one_line_run (E := MiniRe.engine) hello_one_line c
           (compiled "Hello (W|w)orld")); reflexivity.
Defined.

(** A console harness without any harness configuration. *)
Lemma no_mode_never_passes_witness :
  Harness.type (Harness.configure Harness.init no_harness_config) = None
  /\ exists c,
       Console.configure (E := MiniRe.engine) Console.init no_harness_config
       = Ok c
       /\ exists c',
            Console.run c ["Hello world"; "PROJECT EXECUTION SUCCESSFUL"]
            = Ok c'
            /\ Harness.state (Console.base c') = None.
Proof.
  split; [reflexivity|].
  destruct (no_mode_never_passes (E := MiniRe.engine) no_harness_config)
    as (c & Hc & _ & _ & Hrun); [discriminate | discriminate |].
  exists c. split; [exact Hc|].
  destruct (Hrun ["Hello world"; "PROJECT EXECUTION SUCCESSFUL"])
    as (c' & Hr & Hst & _).
  exists c'. auto.
Defined.

(** Three patterns, the second with an unterminated group. *)
Lemma multi_line_configure_witness :
  re_compile (RegexEngine := MiniRe.engine) "Booting (.*" = Raise ReError
  /\ Console.configure (E := MiniRe.engine) Console.init
       second_pattern_unterminated
     = Raise ReError.
Proof.
  split; [reflexivity|].
  apply (proj2 (multi_line_configure (E := MiniRe.engine)
                  second_pattern_unterminated
                  (console_config "multi_line"
                     ["Hello"; "Booting (.*"; "done"] true)
                  eq_refl eq_refl)
           ["Hello"] ["done"] "Booting (.*" ReError); [reflexivity| |reflexivity].
  constructor; [|constructor]. exists (compiled "Hello"). reflexivity.
Defined.

(** A console run that sees the fault marker once. *)
Lemma fault_flag_over_run_witness :
  let c := configured_console hello_one_line in
  configured c
  /\ exists c',
       Console.run c ["booting"; "***** ZEPHYR FATAL ERROR *****"; "halt"]
       = Ok c'
       /\ Harness.fault (Console.base c') = true.
Proof.
  intros c.
  assert (Hc : configured c).
  { apply (configure_configured Console.init hello_one_line). reflexivity. }
  split; [exact Hc|].
  destruct (proj2 (fault_flag_over_run (E := MiniRe.engine)) c
              ["booting"; "***** ZEPHYR FATAL ERROR *****"; "halt"] Hc)
    as (c' & Hr & Hf).
  exists c'. split; [exact Hr|]. rewrite Hf. reflexivity.
Defined.

(** A coverage dump that was started and ended, then started again. *)
Lemma coverage_flag_last_marker_witness :
  str_in Harness.GCOV_START "GCOV_COVERAGE_DUMP_START" = true
  /\ Harness.capture_coverage
       (Test.run suite1
          (["GCOV_COVERAGE_DUMP_START"; "GCOV_COVERAGE_DUMP_END"]
             ++ "GCOV_COVERAGE_DUMP_START" :: ["*a.gcda<01020304"]))
     = str_in Harness.GCOV_START "GCOV_COVERAGE_DUMP_START".
Proof.
  split; [reflexivity|].
  apply (proj1 (proj2 (coverage_flag_last_marker (E := MiniRe.engine)))
           suite1 ["GCOV_COVERAGE_DUMP_START"; "GCOV_COVERAGE_DUMP_END"]
           ["*a.gcda<01020304"] "GCOV_COVERAGE_DUMP_START");
    [left; reflexivity|].
  intros l ->%list_elem_of_singleton. split; reflexivity.
Defined.

(** The table of a console harness after three lines. *)
Lemma console_table_single_entry_witness :
  let c := configured_console hello_one_line in
  ["booting"; "Hello world"; "bye"] <> []
  /\ exists c',
       Console.run c ["booting"; "Hello world"; "bye"] = Ok c'
       /\ Harness.tests (Console.base c')
          = {[ Some "console1" :=
                 if bool_decide (Harness.state (Console.base c') = Some passed)
                 then "PASS" else "FAIL" ]}.
Proof.
  intros c. split; [discriminate|].
  apply (console_table_single_entry (E := MiniRe.engine) hello_one_line c
           eq_refl ["booting"; "Hello world"; "bye"]).
  discriminate.
Defined.

(** Two patterns, three lines, out of order. *)
Lemma unordered_matches_sound_witness :
  let c := configured_console hello_world_unordered in
  exists c',
    Console.run c ["World is done"; "noise"; "Hello"] = Ok c'
    /\ length (Harness.matches (Console.base c')) <= 2.
Proof.
  intros c.
  destruct (unordered_matches_sound (E := MiniRe.engine)
              hello_world_unordered c
              [compiled "Hello"; compiled "World.*done"]
              eq_refl eq_refl eq_refl eq_refl
              ["World is done"; "noise"; "Hello"])
    as (c' & Hr & _ & Hlen & _).
  exists c'. auto.
Defined.

(** The first line that says Hello stays the evidence. *)
Lemma unordered_first_evidence_witness :
  let c := configured_console hello_world_unordered in
  re_search (RegexEngine := MiniRe.engine) (compiled "Hello") "Hello, one"
  = true
  /\ exists c',
       Console.run c (["booting"] ++ "Hello, one" :: ["Hello, two"]) = Ok c'
       /\ od_get "Hello" (Harness.matches (Console.base c'))
          = Some "Hello, one".
Proof.
  intros c. split; [reflexivity|].
  apply (unordered_first_evidence (E := MiniRe.engine) hello_world_unordered
           c [compiled "Hello"; compiled "World.*done"]
           eq_refl eq_refl eq_refl eq_refl
           ["booting"] ["Hello, two"] "Hello, one" 0 "Hello"
           (compiled "Hello")); try reflexivity.
  intros l j q ->%list_elem_of_singleton Hj Hq.
  destruct j as [|[|j]]; [|discriminate Hj|discriminate Hj].
  injection Hq as <-. reflexivity.
Defined.

(** A matching line handled twice in unordered mode. *)
Lemma console_handle_replay_witness :
  let c := configured_console hello_world_unordered in
  Harness.ordered (Console.base c) = false
  /\ exists c1,
       Console.handle c "Hello" = Ok c1
       /\ Console.handle c1 "Hello" = Ok c1.
Proof.
  intros c. split; [reflexivity|].
  destruct (Console.handle c "Hello") as [c1|] eqn:Hh;
    [|vm_compute in Hh; discriminate Hh].
  exists c1. split; [reflexivity|].
  apply (console_handle_replay (E := MiniRe.engine) c "Hello" c1);
    [reflexivity | exact Hh].
Defined.
